(** * LSP plugin front door and server-log panel: a shallow embedding

    The development follows two source files of the package:
    - [plugin/core/panels.py]: output panels and the debounced server log;
    - [plugin/__init__.py]: the public names of the package;
    and the request Dispatcher as the specification describes it.

    Python [str] is modelled as [list ascii], Python [int] as [Z] where the
    code subtracts and as [nat] for buffer offsets and lengths, a [dict] as
    a [gmap], an object handle (window, view) as its integer id. *)

From Stdlib Require Import ZArith Lia List Ascii String.
From stdpp Require Import base option list gmap strings.

Import ListNotations.
Local Open Scope Z_scope.

Abbreviation str := (list ascii).

Definition LF : ascii := "010"%char.
Definition CR : ascii := "013"%char.

(** A string literal as a Python [str]. *)
Definition str_of (lit : string) : str := list_ascii_of_string lit.

(** ** Python [str] operations used by the panel code *)
Module Str.

Fixpoint startswith (old t : str) : bool :=
  match old, t with
  | [], _ => true
  | o :: old', c :: t' => if Ascii.eqb o c then startswith old' t' else false
  | _ :: _, [] => false
  end.

(** [t.replace(old, new)] for a non-empty [old]: a left-to-right scan that
    replaces each occurrence and resumes after it.  [skip] counts the
    characters of the occurrence just replaced that are still to be
    passed over. *)
Fixpoint replace_from (old new : str) (skip : nat) (t : str) : str :=
  match t with
  | [] => []
  | c :: t' =>
      match skip with
      | S k => replace_from old new k t'
      | O =>
          if startswith old t
          then new ++ replace_from old new (length old - 1) t'
          else c :: replace_from old new 0 t'
      end
  end.

Definition replace (t old new : str) : str := replace_from old new 0 t.

(** ["{}: {}\n".format(prefix, message)] *)
Definition format_line (prefix message : str) : str :=
  prefix ++ str_of ": " ++ message ++ [LF].

End Str.

(** ** The editor's text views (the part of the [sublime] API the code calls) *)

Record Region := mkRegion { region_a : nat; region_b : nat }.

Record View := mkView {
  view_read_only : bool;
  view_text : str
}.

Module sublime.

Definition set_read_only (v : View) (flag : bool) : View :=
  {| view_read_only := flag; view_text := view_text v |}.

Definition size (v : View) : nat := length (view_text v).

(** [view.insert(edit, point, string)]; a read-only view refuses edits. *)
Definition insert (v : View) (point : nat) (text : str) : View :=
  if view_read_only v then v
  else {| view_read_only := false;
          view_text := take point (view_text v) ++ text ++ drop point (view_text v) |}.

(** [view.erase(edit, region)] *)
Definition erase (v : View) (r : Region) : View :=
  if view_read_only v then v
  else {| view_read_only := false;
          view_text := take (region_a r) (view_text v) ++ drop (region_b r) (view_text v) |}.

(** [view.replace(edit, region, string)] *)
Definition replace (v : View) (r : Region) (text : str) : View :=
  if view_read_only v then v
  else {| view_read_only := false;
          view_text := take (region_a r) (view_text v) ++ text
                       ++ drop (region_b r) (view_text v) |}.

(** [view.rowcol(point)]: zero-based row and column of an offset. *)
Fixpoint rowcol_from (t : str) (point : nat) (row col : Z) : Z * Z :=
  match point, t with
  | S n, c :: t' =>
      if Ascii.eqb c LF then rowcol_from t' n (row + 1) 0
      else rowcol_from t' n row (col + 1)
  | _, _ => (row, col)
  end.

Definition rowcol (v : View) (point : nat) : Z * Z :=
  rowcol_from (view_text v) point 0 0.

(** Offset just after the last newline strictly before [point]. *)
Fixpoint line_start_from (t : str) (point : nat) (pos start : nat) : nat :=
  match point, t with
  | S n, c :: t' =>
      line_start_from t' n (S pos) (if Ascii.eqb c LF then S pos else start)
  | _, _ => start
  end.

(** Number of characters up to and including the first newline of [t],
    all of [t] when it has none. *)
Fixpoint to_eol (t : str) : nat :=
  match t with
  | [] => O
  | c :: t' => if Ascii.eqb c LF then 1%nat else S (to_eol t')
  end.

(** [view.full_line(point)]: the line holding [point], its trailing
    newline included. *)
Definition full_line (v : View) (point : nat) : Region :=
  let t := view_text v in
  let p := Nat.min point (length t) in
  {| region_a := line_start_from t p 0 0;
     region_b := (p + to_eol (drop p t))%nat |}.

End sublime.

(** ** The editor's windows and their output panels *)

(** A window owns its output panels by name; each panel is a view, known by
    its id.  Handles are ids; the handle [0] is the one that tests false. *)
Record Window := mkWindow { window_panels : gmap string Z }.

Record Editor := mkEditor {
  windows : gmap Z Window;
  views : gmap Z View;
  next_view_id : Z
}.

Module window_api.

(** [bool(view)] for a view handle, [bool(x)] for an optional one. *)
Definition truthy (panel : option Z) : bool :=
  match panel with
  | Some id => negb (id =? 0)
  | None => false
  end.

(** [window.is_valid()] *)
Definition window_is_valid (e : Editor) (window : Z) : bool :=
  bool_decide (is_Some (windows e !! window)).

(** [view.is_valid()] *)
Definition view_is_valid (e : Editor) (view : Z) : bool :=
  bool_decide (is_Some (views e !! view)).

(** [window.find_output_panel(name)] *)
Definition find_output_panel (e : Editor) (window : Z) (name : string) : option Z :=
  w ← windows e !! window; window_panels w !! name.

(** [window.create_output_panel(name)]: the panel of that name, created
    (empty, writable, with an id never used before) when the window has
    none; the false handle when the window is gone. *)
Definition create_output_panel (e : Editor) (window : Z) (name : string) : Editor * Z :=
  match windows e !! window with
  | None => (e, 0)
  | Some w =>
      match window_panels w !! name with
      | Some id => (e, id)
      | None =>
          let id := next_view_id e in
          ({| windows := <[window := mkWindow (<[name := id]> (window_panels w))]> (windows e);
              views := <[id := mkView false []]> (views e);
              next_view_id := id + 1 |}, id)
      end
  end.

(** [window.destroy_output_panel(name)] *)
Definition destroy_output_panel (e : Editor) (window : Z) (name : string) : Editor :=
  match windows e !! window with
  | None => e
  | Some w =>
      match window_panels w !! name with
      | None => e
      | Some id =>
          {| windows := <[window := mkWindow (delete name (window_panels w))]> (windows e);
             views := delete id (views e);
             next_view_id := next_view_id e |}
      end
  end.

(** A method call on a view handle: it changes the view when it is open. *)
Definition on_view (e : Editor) (view : Z) (f : View → View) : Editor :=
  {| windows := windows e;
     views := alter f view (views e);
     next_view_id := next_view_id e |}.

(** The user opens a window. *)
Definition open_window (e : Editor) (window : Z) : Editor :=
  match windows e !! window with
  | Some _ => e
  | None =>
      {| windows := <[window := mkWindow ∅]> (windows e);
         views := views e;
         next_view_id := next_view_id e |}
  end.

(** The user closes a window: its panels go with it. *)
Definition close_window (e : Editor) (window : Z) : Editor :=
  match windows e !! window with
  | None => e
  | Some w =>
      {| windows := delete window (windows e);
         views := map_fold (λ _ id vs, delete id vs) (views e) (window_panels w);
         next_view_id := next_view_id e |}
  end.

End window_api.

(** ** Python exceptions and results *)

Inductive exn :=
| KeyError (key : Z)
| UnboundLocalError (name : string)
| AttributeError (name : string).

(** [UnboundLocalError] is a subclass of [NameError]. *)
Definition is_NameError (e : exn) : bool :=
  match e with UnboundLocalError _ => true | _ => false end.

(** The outcome of a call: the state it leaves behind, and the exception it
    raised if it did not complete. *)
Inductive result (A : Type) :=
| Ok (a : A)
| Raise (e : exn) (a : A).
Arguments Ok {A} a.
Arguments Raise {A} e a.

Definition completed {A} (r : result A) : bool :=
  match r with Ok _ => true | Raise _ _ => false end.

Definition state_of {A} (r : result A) : A :=
  match r with Ok a => a | Raise _ a => a end.

(** ** plugin/core/panels.py *)
Module panels.

Definition SERVER_PANEL_MAX_LINES : Z := 500.
Definition SERVER_PANEL_DEBOUNCE_TIME_MS : Z := 80.

Inductive PanelName := Diagnostics | References | LanguageServers.

Definition panel_name (n : PanelName) : string :=
  match n with
  | Diagnostics => "diagnostics"
  | References => "references"
  | LanguageServers => "language servers"
  end.

(** The class attribute [LspUpdateServerPanelCommand.to_be_processed]:
    pending (prefix, message) pairs by window id. *)
Abbreviation pending := (gmap Z (list (str * str))).

(** Locals of [LspUpdateServerPanelCommand.run] that are bound inside the
    body of its first loop: [total_lines], [point], [regions]. *)
Record run_locals := mkLocals {
  total_lines : Z;
  point : nat;
  regions : list Region
}.

(** One iteration of [for prefix, message in to_process] (lines 157-162). *)
Definition insert_message (acc : View * option run_locals) (entry : str * str)
  : View * option run_locals :=
  let view := acc.1 in
  let message := Str.replace entry.2 [CR; LF] [LF] in
  let view := sublime.insert view (sublime.size view) (Str.format_line entry.1 message) in
  let total := (sublime.rowcol view (sublime.size view)).1 in
  (view, Some {| total_lines := total; point := 0; regions := [] |}).

(** [for _ in range(0, n)]: collect the regions of [n] full lines
    (lines 163-167). *)
Fixpoint collect_regions (view : View) (n : nat) (point : nat) (regions : list Region)
  : list Region :=
  match n with
  | O => regions
  | S n' =>
      let region := sublime.full_line view point in
      collect_regions view n' (region_b region) (regions ++ [region])
  end.

(** [for region in reversed(regions): self.view.erase(edit, region)] *)
Definition erase_reversed (view : View) (regions : list Region) : View :=
  fold_left sublime.erase (rev regions) view.

(** [LspUpdateServerPanelCommand.run(self, edit, window_id)] with
    [self.view = view].  The context manager [mutable] has no
    [try]/[finally]: an exception inside the block leaves the view
    writable. *)
Definition run (to_be_processed : pending) (view : View) (window_id : Z)
  : result (pending * View) :=
  match to_be_processed !! window_id with
  | None => Raise (KeyError window_id) (to_be_processed, view)
  | Some to_process =>
      let to_be_processed := delete window_id to_be_processed in
      let view := sublime.set_read_only view false in
      let '(view, locals) := fold_left insert_message to_process (view, None) in
      match locals with
      | None => Raise (UnboundLocalError "total_lines") (to_be_processed, view)
      | Some l =>
          let n := Z.to_nat (Z.max 0 (total_lines l - SERVER_PANEL_MAX_LINES)) in
          let regions := collect_regions view n (point l) (regions l) in
          let view := erase_reversed view regions in
          Ok (to_be_processed, sublime.set_read_only view true)
      end
  end.

(** [LspClearPanelCommand.run] *)
Definition clear_panel (view : View) : View :=
  let view := sublime.set_read_only view false in
  let view := sublime.erase view (mkRegion 0 (sublime.size view)) in
  sublime.set_read_only view true.

(** [LspUpdatePanelCommand.run]; [characters or ""] with [None] as the
    missing argument.  Folds and the selection are not part of the model. *)
Definition update_panel (view : View) (characters : option str) : View :=
  let view := sublime.set_read_only view false in
  let view := sublime.replace view (mkRegion 0 (sublime.size view)) (default [] characters) in
  sublime.set_read_only view true.

(** *** Output panels of a window *)

(** [create_output_panel(window, name)]; the settings it writes are not
    part of the model. *)
Definition create_output_panel (e : Editor) (window : Z) (name : string)
  : Editor * option Z :=
  let '(e, panel) := window_api.create_output_panel e window name in
  (e, Some panel).

(** [destroy_output_panels(window)] *)
Definition destroy_output_panels (e : Editor) (window : Z) : Editor :=
  fold_left
    (λ e field,
       let name := panel_name field in
       let panel := window_api.find_output_panel e window name in
       match panel with
       | Some id =>
           if window_api.truthy panel && window_api.view_is_valid e id
           then window_api.destroy_output_panel e window name
           else e
       | None => e
       end)
    [Diagnostics; References; LanguageServers] e.

(** [create_panel(window, name, result_file_regex, result_line_regex,
    syntax)]; settings and syntax are not part of the model. *)
Definition create_panel (e : Editor) (window : Z) (name : string)
    (result_file_regex result_line_regex syntax : string) : Editor * option Z :=
  let '(e, panel) := create_output_panel e window name in
  if negb (window_api.truthy panel) then (e, None)
  else
    let '(e, panel) := window_api.create_output_panel e window name in
    let e := window_api.on_view e panel (λ v, sublime.set_read_only v true) in
    (e, Some panel).

(** [ensure_panel]: [window.find_output_panel(name) or create_panel(...)] *)
Definition ensure_panel (e : Editor) (window : Z) (name : string)
    (result_file_regex result_line_regex syntax : string) : Editor * option Z :=
  let found := window_api.find_output_panel e window name in
  if window_api.truthy found then (e, found)
  else create_panel e window name result_file_regex result_line_regex syntax.

Definition ensure_server_panel (e : Editor) (window : Z) : Editor * option Z :=
  ensure_panel e window (panel_name LanguageServers) "" ""
    "Packages/LSP/Syntaxes/ServerLog.sublime-syntax".

(** *** The debounced server log *)

(** The closure pair that [update_server_panel] hands to [debounced]:
    [condition] and the flushing lambda share the captured [panel],
    [window_id] and [previous_length]. *)
Record Timer := mkTimer {
  timer_panel : Z;
  timer_window_id : Z;
  timer_previous_length : nat;
  timer_timeout_ms : Z
}.

(** The process: the editor, the class-level table and the pending
    timers, oldest first. *)
Record State := mkState {
  editor : Editor;
  to_be_processed : pending;
  timers : list Timer
}.

(** Modelled from the spec: [debounced] of [plugin/core/types.py], which
    is not among the sources.  It arms a timer of [timeout_ms] for the
    callback; when the timer elapses the callback runs if its condition
    holds then, and is dropped otherwise. *)
Definition debounced (st : State) (t : Timer) : State :=
  {| editor := editor st;
     to_be_processed := to_be_processed st;
     timers := timers st ++ [t] |}.

(** [update_server_panel(window, prefix, message)] *)
Definition update_server_panel (st : State) (window : Z) (prefix message : str) : State :=
  if negb (window_api.window_is_valid (editor st) window) then st
  else
    let window_id := window in
    let '(e, panel) := ensure_server_panel (editor st) window in
    match panel with
    | Some id =>
        if negb (window_api.truthy panel)
        then {| editor := e; to_be_processed := to_be_processed st; timers := timers st |}
        else
          let queue := default [] (to_be_processed st !! window_id) ++ [(prefix, message)] in
          let table := <[window_id := queue]> (to_be_processed st) in
          let previous_length := length queue in
          debounced {| editor := e; to_be_processed := table; timers := timers st |}
                    (mkTimer id window_id previous_length SERVER_PANEL_DEBOUNCE_TIME_MS)
    | None => {| editor := e; to_be_processed := to_be_processed st; timers := timers st |}
    end.

(** The closure [condition] (lines 128-141), evaluated in state [st]. *)
Definition condition (st : State) (t : Timer) : bool :=
  if negb (window_api.truthy (Some (timer_panel t))) then false
  else if negb (window_api.view_is_valid (editor st) (timer_panel t)) then false
  else
    match to_be_processed st !! timer_window_id t with
    | None => false
    | Some to_process =>
        let current_length := length to_process in
        if (10 <=? current_length)%nat then true
        else (current_length =? timer_previous_length t)%nat
    end.

(** The flushing lambda (line 144):
    [panel.run_command("lsp_update_server_panel", {"window_id": window_id})
     if panel else None].  The command runs on an open view only. *)
Definition flush (st : State) (t : Timer) : result State :=
  if negb (window_api.truthy (Some (timer_panel t))) then Ok st
  else
    match views (editor st) !! timer_panel t with
    | None => Ok st
    | Some view =>
        let put (r : pending * View) :=
          {| editor := window_api.on_view (editor st) (timer_panel t) (λ _, r.2);
             to_be_processed := r.1;
             timers := timers st |} in
        match run (to_be_processed st) view (timer_window_id t) with
        | Ok r => Ok (put r)
        | Raise e r => Raise e (put r)
        end
    end.

(** Modelled from the spec: the other half of [debounced], the moment the
    [i]-th pending timer elapses. *)
Definition timer_elapses (st : State) (i : nat) : result State :=
  match timers st !! i with
  | None => Ok st
  | Some t =>
      let st := {| editor := editor st;
                   to_be_processed := to_be_processed st;
                   timers := delete i (timers st) |} in
      if condition st t then flush st t else Ok st
  end.

(** What can happen to the process. *)
Inductive action :=
| CallUpdateServerPanel (window : Z) (prefix message : str)
| TimerElapses (i : nat)
| CallDestroyOutputPanels (window : Z)
| RunClearPanel (view : Z)
| RunUpdatePanel (view : Z) (characters : option str)
| OpenWindow (window : Z)
| CloseWindow (window : Z).

Definition with_editor (st : State) (e : Editor) : State :=
  {| editor := e; to_be_processed := to_be_processed st; timers := timers st |}.

Definition step (st : State) (a : action) : result State :=
  match a with
  | CallUpdateServerPanel window prefix message =>
      Ok (update_server_panel st window prefix message)
  | TimerElapses i => timer_elapses st i
  | CallDestroyOutputPanels window =>
      Ok (with_editor st (destroy_output_panels (editor st) window))
  | RunClearPanel view =>
      Ok (with_editor st (window_api.on_view (editor st) view clear_panel))
  | RunUpdatePanel view characters =>
      Ok (with_editor st (window_api.on_view (editor st) view (λ v, update_panel v characters)))
  | OpenWindow window => Ok (with_editor st (window_api.open_window (editor st) window))
  | CloseWindow window => Ok (with_editor st (window_api.close_window (editor st) window))
  end.

(** A run of the process: an exception raised in a callback is reported
    by the editor and the process goes on from the state it was left in. *)
Definition exec (st : State) (trace : list action) : State :=
  fold_left (λ st a, state_of (step st a)) trace st.

(** The process right after the plugin is loaded: the class body has just
    bound [to_be_processed] to an empty dict, and nothing is scheduled. *)
Definition loaded (e : Editor) : State :=
  {| editor := e; to_be_processed := ∅; timers := [] |}.

Definition reachable (st : State) : Prop :=
  ∃ e trace, st = exec (loaded e) trace.

End panels.


(** ** plugin/__init__.py *)
Module plugin.

Inductive pyvalue :=
| PyNone
| PyStr (v : str).

(** [def filename_to_uri(filename: str) -> str: return] *)
Definition filename_to_uri (filename : str) : pyvalue := PyNone.

(** The statements of a module body that bind names. *)
Inductive stmt :=
| ImportFrom (module name : string)
| Def (name : string)
| AssignList (name : string) (value : list string).

(** What a name of the module is bound to. *)
Inductive binding :=
| Imported (module name : string)
| Function
| ListOf (value : list string).

(** The body of [plugin/__init__.py], top to bottom.  The two imports
    from [.core.url] (lines 15-16) are comments and bind nothing. *)
Definition body : list stmt :=
  [ ImportFrom ".core.css" "css";
    ImportFrom ".core.protocol" "Notification";
    ImportFrom ".core.protocol" "Request";
    ImportFrom ".core.protocol" "Response";
    ImportFrom ".core.sessions" "AbstractPlugin";
    ImportFrom ".core.sessions" "register_plugin";
    ImportFrom ".core.sessions" "Session";
    ImportFrom ".core.sessions" "SessionBufferProtocol";
    ImportFrom ".core.sessions" "unregister_plugin";
    ImportFrom ".core.types" "ClientConfig";
    ImportFrom ".core.types" "LanguageConfig";
    ImportFrom ".core.types" "WorkspaceFolder";
    ImportFrom ".core.version" "__version__";
    Def "filename_to_uri";
    AssignList "__all__"
      [ "__version__"; "AbstractPlugin"; "ClientConfig"; "css";
        "filename_to_uri"; "LanguageConfig"; "Notification";
        "register_plugin"; "Request"; "Response"; "Session";
        "SessionBufferProtocol"; "unregister_plugin"; "uri_to_filename";
        "WorkspaceFolder" ] ].

(** Running one statement in a module namespace.  An import is taken to
    succeed: the imported modules are not among the sources. *)
Definition exec_stmt (ns : gmap string binding) (st : stmt) : gmap string binding :=
  match st with
  | ImportFrom module name => <[name := Imported module name]> ns
  | Def name => <[name := Function]> ns
  | AssignList name value => <[name := ListOf value]> ns
  end.

Definition exec_body (b : list stmt) : gmap string binding :=
  fold_left exec_stmt b ∅.

(** The namespace of the package once its body has run. *)
Definition namespace : gmap string binding := exec_body body.

(** [getattr(module, name)] *)
Definition getattr (ns : gmap string binding) (name : string) : result (option binding) :=
  match ns !! name with
  | Some b => Ok (Some b)
  | None => Raise (AttributeError name) None
  end.

Definition dunder_all (ns : gmap string binding) : list string :=
  match ns !! "__all__" with
  | Some (ListOf names) => names
  | _ => []
  end.

(** [from module import *] into [target], for a module that sets
    [__all__]: each listed name is looked up in turn and the first one
    that is missing raises. *)
Fixpoint import_names (ns : gmap string binding) (names : list string)
    (target : gmap string binding) : result (gmap string binding) :=
  match names with
  | [] => Ok target
  | name :: rest =>
      match ns !! name with
      | Some b => import_names ns rest (<[name := b]> target)
      | None => Raise (AttributeError name) target
      end
  end.

Definition star_import (ns target : gmap string binding) : result (gmap string binding) :=
  import_names ns (dunder_all ns) target.

End plugin.

(** ** The request Dispatcher *)
Module dispatcher.

(** How a pending request ends for its caller. *)
Inductive outcome :=
| Timeout
| Cancelled
| Responded (result : Z).

Inductive message :=
| RequestMsg (id : Z) (method : string)
| CancelNotification (id : Z).

(** Modelled from the spec: the Dispatcher of section 4.3; the session and
    protocol modules that implement it are not among the sources.  Its
    state is the map from pending request id to the caller's method, the
    next fresh id, the messages written through the Transport, the
    outcomes handed to callers in the order they were resolved, and the
    ids of responses that were discarded. *)
Record Dispatcher := mkDispatcher {
  pending : gmap Z string;
  next_id : Z;
  sent : list message;
  resolved : list (Z * outcome);
  discarded : list Z
}.

Definition init : Dispatcher :=
  {| pending := ∅; next_id := 0; sent := []; resolved := []; discarded := [] |}.

(** Modelled from the spec: [send_request] allocates a fresh id, records
    the pending continuation and writes through the Transport. *)
Definition send_request (d : Dispatcher) (method : string) : Dispatcher :=
  let id := next_id d in
  {| pending := <[id := method]> (pending d);
     next_id := id + 1;
     sent := sent d ++ [RequestMsg id method];
     resolved := resolved d;
     discarded := discarded d |}.

(** Modelled from the spec: the timeout armed for [id] elapses; the
    pending entry is removed and the caller receives [Timeout].  A timer
    whose id is no longer pending has nothing to resolve. *)
Definition timeout_elapses (d : Dispatcher) (id : Z) : Dispatcher :=
  match pending d !! id with
  | Some _ =>
      {| pending := delete id (pending d);
         next_id := next_id d;
         sent := sent d;
         resolved := resolved d ++ [(id, Timeout)];
         discarded := discarded d |}
  | None => d
  end.

(** Modelled from the spec: [cancel(id)] removes the pending entry if
    still outstanding, emits the cancellation notification and resolves
    the caller with [Cancelled]; otherwise it is a no-op. *)
Definition cancel (d : Dispatcher) (id : Z) : Dispatcher :=
  match pending d !! id with
  | Some _ =>
      {| pending := delete id (pending d);
         next_id := next_id d;
         sent := sent d ++ [CancelNotification id];
         resolved := resolved d ++ [(id, Cancelled)];
         discarded := discarded d |}
  | None => d
  end.

(** Modelled from the spec: on receipt of a Response, look up by id; if
    found, resolve once and remove; if not found, discard. *)
Definition receive_response (d : Dispatcher) (id : Z) (result : Z) : Dispatcher :=
  match pending d !! id with
  | Some _ =>
      {| pending := delete id (pending d);
         next_id := next_id d;
         sent := sent d;
         resolved := resolved d ++ [(id, Responded result)];
         discarded := discarded d |}
  | None =>
      {| pending := pending d;
         next_id := next_id d;
         sent := sent d;
         resolved := resolved d;
         discarded := discarded d ++ [id] |}
  end.

Inductive event :=
| SendRequest (method : string)
| TimeoutElapses (id : Z)
| Cancel (id : Z)
| ReceiveResponse (id : Z) (result : Z).

Definition handle (d : Dispatcher) (ev : event) : Dispatcher :=
  match ev with
  | SendRequest method => send_request d method
  | TimeoutElapses id => timeout_elapses d id
  | Cancel id => cancel d id
  | ReceiveResponse id result => receive_response d id result
  end.

Definition run (events : list event) : Dispatcher := fold_left handle events init.

(** How many times [id] has been resolved. *)
Definition resolutions (d : Dispatcher) (id : Z) : nat :=
  length (filter (λ r, r.1 = id) (resolved d)).

End dispatcher.

(** ** Lines of a text *)

Fixpoint count_lf (t : str) : nat :=
  match t with
  | [] => O
  | c :: t' => if Ascii.eqb c LF then S (count_lf t') else count_lf t'
  end.

(** The first [k] lines of [t], each with its newline. *)
Fixpoint take_lines (k : nat) (t : str) : str :=
  match k with
  | O => []
  | S k' => take (sublime.to_eol t) t ++ take_lines k' (drop (sublime.to_eol t) t)
  end.

(** [t] without its first [k] lines. *)
Fixpoint drop_lines (k : nat) (t : str) : str :=
  match k with
  | O => t
  | S k' => drop_lines k' (drop (sublime.to_eol t) t)
  end.

(** Every line of [t] is complete: [t] is empty or ends in a newline. *)
Definition complete_lines (t : str) : Prop :=
  t = [] ∨ ∃ t0, t = t0 ++ [LF].

(** The text of one queued entry as [run] writes it. *)
Definition entry_text (entry : str * str) : str :=
  Str.format_line entry.1 (Str.replace entry.2 [CR; LF] [LF]).

(** The region of line number [j] of [t], counted from 0. *)
Definition line_region (t : str) (j : nat) : Region :=
  mkRegion (length (take_lines j t)) (length (take_lines (S j) t)).

(** The number of lines [run] erases from a panel holding [text]. *)
Definition excess (text : str) : nat :=
  Z.to_nat (Z.max 0 (Z.of_nat (count_lf text) - panels.SERVER_PANEL_MAX_LINES)).

(** Every stored queue holds at least one entry. *)
Definition queues_nonempty (table : panels.pending) : Prop :=
  ∀ window_id queue, table !! window_id = Some queue → queue ≠ [].

(** ** Sample data *)

(** An editor with one window, number 1, that has no panel yet. *)
Definition one_window : Editor := mkEditor {[ 1 := mkWindow ∅ ]} ∅ 1.

(** The same editor once the server panel of window 1 exists. *)
Definition one_panel : Editor := (panels.ensure_server_panel one_window 1).1.

(** ** The Dispatcher's bookkeeping *)

(** The request and the outcome that an event is about, when it is one of
    the three that can resolve a request. *)
Definition resolves (ev : dispatcher.event) : option (Z * dispatcher.outcome) :=
  match ev with
  | dispatcher.SendRequest _ => None
  | dispatcher.TimeoutElapses id => Some (id, dispatcher.Timeout)
  | dispatcher.Cancel id => Some (id, dispatcher.Cancelled)
  | dispatcher.ReceiveResponse id result => Some (id, dispatcher.Responded result)
  end.

(** Ids are handed out in order; each id handed out is pending or has been
    resolved, never both, and no id was resolved twice. *)
Record dispatcher_ok (d : dispatcher.Dispatcher) : Prop := {
  ok_next : 0 ≤ dispatcher.next_id d;
  ok_nodup : NoDup (dispatcher.resolved d).*1;
  ok_resolved : ∀ id, id ∈ (dispatcher.resolved d).*1 →
                dispatcher.pending d !! id = None ∧ 0 ≤ id < dispatcher.next_id d;
  ok_pending : ∀ id, is_Some (dispatcher.pending d !! id) → 0 ≤ id < dispatcher.next_id d;
  ok_allocated : ∀ id, 0 ≤ id < dispatcher.next_id d →
                 is_Some (dispatcher.pending d !! id) ∨ id ∈ (dispatcher.resolved d).*1
}.

(** ** Accounting for the entries of the server log *)


(** The entries of the queue of [window_id] that one step hands to [run]:
    the whole queue, when a timer for that window elapses and its condition
    holds. *)
Definition flushes (st : panels.State) (a : panels.action) (window_id : Z)
  : list (str * str) :=
  match a with
  | panels.TimerElapses i =>
      match panels.timers st !! i with
      | Some t =>
          if bool_decide (panels.timer_window_id t = window_id) && panels.condition st t
          then default [] (panels.to_be_processed st !! window_id)
          else []
      | None => []
      end
  | _ => []
  end.



(** The panel text that [run] leaves when it writes [queue] to a panel
    holding [text]. *)
Definition flushed_text (text : str) (queue : list (str * str)) : str :=
  let inserted := text ++ concat (map entry_text queue) in
  drop_lines (excess inserted) inserted.

(** ** Lifecycle of the pending table *)

(** A teardown of the pending table: a step that, whenever it is taken,
    leaves the table empty. *)
Definition is_teardown (a : panels.action) : Prop :=
  ∀ st, panels.reachable st → panels.to_be_processed (state_of (panels.step st a)) = ∅.

(** The table is released with its owner: once nothing is scheduled any
    more, no entry is left for a window that is gone. *)
Definition released_with_window (st : panels.State) : Prop :=
  panels.timers st = [] →
  ∀ window_id, window_api.window_is_valid (panels.editor st) window_id = false →
               panels.to_be_processed st !! window_id = None.

(** An owned lifecycle for the pending table: some step tears it down, and
    its entries do not outlive their window. *)
Definition owned_lifecycle : Prop :=
  (∃ a, is_teardown a) ∧ (∀ st, panels.reachable st → released_with_window st).

(** An editor with two windows, 1 and 2, without panels. *)
Definition two_windows : Editor :=
  mkEditor {[ 1 := mkWindow ∅; 2 := mkWindow ∅ ]} ∅ 1.

(** Both windows get a message. *)
Definition two_queues : panels.State :=
  panels.exec (panels.loaded two_windows)
    [panels.CallUpdateServerPanel 1 (str_of "srv") (str_of "one");
     panels.CallUpdateServerPanel 2 (str_of "srv") (str_of "two")].

(** A window gets a message and is closed before the timer elapses. *)
Definition closed_early : panels.State :=
  panels.exec (panels.loaded one_window)
    [panels.CallUpdateServerPanel 1 (str_of "srv") (str_of "started");
     panels.CloseWindow 1;
     panels.TimerElapses 0].

(** ** Panels and the timers that hold them *)

(** [id] is the panel [name] of [window]. *)
Definition panel_of (e : Editor) (window : Z) (name : string) (id : Z) : Prop :=
  window_api.find_output_panel e window name = Some id.

(** View ids are handed out in order. *)
Record editor_wf (e : Editor) : Prop := {
  wf_views : ∀ id, is_Some (views e !! id) → id < next_view_id e;
  wf_panels : ∀ w name id, panel_of e w name id → id < next_view_id e
}.

(** From [e] to [e']: ids are not reused, a closed view stays closed, and
    a panel that stays open stays the panel it was. *)
Record evolves (e e' : Editor) : Prop := {
  ev_next : next_view_id e ≤ next_view_id e';
  ev_views : ∀ id, id < next_view_id e → is_Some (views e' !! id) → is_Some (views e !! id);
  ev_panels : ∀ w name id, id < next_view_id e → is_Some (views e' !! id) →
              panel_of e w name id → panel_of e' w name id
}.

(** The timer's panel is the server panel of the timer's window for as
    long as it is open. *)
Definition timer_wired (e : Editor) (t : panels.Timer) : Prop :=
  panels.timer_panel t < next_view_id e
  ∧ (is_Some (views e !! panels.timer_panel t) →
     panel_of e (panels.timer_window_id t) (panels.panel_name panels.LanguageServers)
       (panels.timer_panel t)).

Definition wired (st : panels.State) : Prop :=
  editor_wf (panels.editor st) ∧ Forall (timer_wired (panels.editor st)) (panels.timers st).

(** ** plugin/core/url.py *)
Module url.

Definition BACKSLASH : ascii := "\"%char.
Definition SLASH : ascii := "/"%char.

(** [t.split(sep)] for a separator of one character. *)
Fixpoint split (sep : ascii) (t : str) : list str :=
  match t with
  | [] => [[]]
  | c :: t' =>
      if Ascii.eqb c sep then [] :: split sep t'
      else
        match split sep t' with
        | part :: parts => (c :: part) :: parts
        | [] => [[c]]
        end
  end.

(** [sep.join(parts)] *)
Fixpoint join (sep : str) (parts : list str) : str :=
  match parts with
  | [] => []
  | part :: parts' =>
      match parts' with
      | [] => part
      | _ :: _ => part ++ sep ++ join sep parts'
      end
  end.

(** The local [wsl_path] of [filename_to_uri] (line 11):
    ['/' + '/'.join(path.split('\\')[4:])]. *)
Definition wsl_path (path : str) : str :=
  [SLASH] ++ join [SLASH] (drop 4 (split BACKSLASH path)).

(** [filename_to_uri(path)]; [pathname2url] and [urljoin] are the standard
    library's and are taken as given. *)
Definition filename_to_uri (pathname2url : str → str) (urljoin : str → str → str)
    (path : str) : str :=
  urljoin (str_of "file:") (pathname2url (wsl_path path)).

End url.

(** ** Bursts of messages *)

(** Calls of [update_server_panel] for one window, one per entry. *)
Definition burst (window : Z) (entries : list (str * str)) : list panels.action :=
  map (λ entry, panels.CallUpdateServerPanel window entry.1 entry.2) entries.

(** The timers that a burst arms on top of a queue of [n] entries. *)
Definition burst_timers (panel window : Z) (n : nat) (entries : list (str * str))
  : list panels.Timer :=
  imap (λ k _, panels.mkTimer panel window (n + S k) panels.SERVER_PANEL_DEBOUNCE_TIME_MS)
    entries.

(** ** Conventions on views *)

(** "All our panels are read-only" (line 77). *)
Definition all_read_only (e : Editor) : Prop :=
  ∀ id v, views e !! id = Some v → view_read_only v = true.

(** After [destroy_output_panels], what is left under a panel name is at
    most a handle that tests false or a view that is closed. *)
Definition no_open_panel (e : Editor) (window : Z) (field : panels.PanelName) : Prop :=
  match window_api.find_output_panel e window (panels.panel_name field) with
  | Some id => window_api.truthy (Some id) = false ∨ window_api.view_is_valid e id = false
  | None => True
  end.

(** One round of the loop of [destroy_output_panels]. *)
Definition destroy_if_open (window : Z) (e : Editor) (field : panels.PanelName) : Editor :=
  let name := panels.panel_name field in
  let panel := window_api.find_output_panel e window name in
  match panel with
  | Some id =>
      if window_api.truthy panel && window_api.view_is_valid e id
      then window_api.destroy_output_panel e window name
      else e
  | None => e
  end.

(** The lines that the entries of a queue add to a panel. *)
Definition entry_lines (queue : list (str * str)) : nat :=
  sum_list (map (λ entry, (count_lf entry.1 + count_lf entry.2 + 1)%nat) queue).

(** Backslashes become slashes. *)
Definition to_slash (c : ascii) : ascii :=
  if Ascii.eqb c url.BACKSLASH then url.SLASH else c.

(** The editor right after [window.create_output_panel(name)] has made a
    new panel for a window [w] that had none under that name. *)
Definition with_new_panel (e : Editor) (window : Z) (w : Window) (name : string) : Editor :=
  {| windows := <[window := mkWindow (<[name := next_view_id e]> (window_panels w))]> (windows e);
     views := <[next_view_id e := mkView false []]> (views e);
     next_view_id := next_view_id e + 1 |}.

(** The part of the process state that keeps panels read-only. *)
Definition tidy (st : panels.State) : Prop :=
  all_read_only (panels.editor st)
  ∧ 0 < next_view_id (panels.editor st)
  ∧ queues_nonempty (panels.to_be_processed st).

(** ** Every entry written? *)


(** * Properties *)

(** ** Lines *)
Section lines.

Implicit Types t u : str.

Lemma count_lf_app t u : count_lf (t ++ u) = (count_lf t + count_lf u)%nat.
Proof.
  induction t as [|c t IH]; simpl; [done|].
  destruct (Ascii.eqb c LF); lia.
Qed.

Lemma to_eol_le t : (sublime.to_eol t ≤ length t)%nat.
Proof.
  induction t as [|c t IH]; simpl; [lia|].
  destruct (Ascii.eqb c LF); lia.
Qed.

(** A text with a newline splits after its first one. *)
Lemma first_line_split t :
  (0 < count_lf t)%nat →
  ∃ l, take (sublime.to_eol t) t = l ++ [LF] ∧ count_lf l = O
       ∧ count_lf (drop (sublime.to_eol t) t) = pred (count_lf t).
Proof.
  induction t as [|c t IH]; simpl; [lia|].
  destruct (Ascii.eqb c LF) eqn:E.
  - intros _. apply Ascii.eqb_eq in E as ->. by exists [].
  - intros [l (Hl & Hc & Hd)]%IH. exists (c :: l). simpl.
    rewrite Hl, E. done.
Qed.

Lemma take_drop_lines k t : take_lines k t ++ drop_lines k t = t.
Proof.
  revert t. induction k as [|k IH]; intros t; simpl; [done|].
  by rewrite <-app_assoc, IH, take_drop.
Qed.

Lemma drop_length_take_lines k t : drop (length (take_lines k t)) t = drop_lines k t.
Proof.
  rewrite <-(take_drop_lines k t) at 2. by rewrite drop_app_length.
Qed.

(** Lines can also be peeled off from the far end. *)
Lemma drop_lines_S k t :
  drop_lines (S k) t = drop (sublime.to_eol (drop_lines k t)) (drop_lines k t).
Proof.
  revert t. induction k as [|k IH]; intros t; [done|].
  change (drop_lines (S (S k)) t) with (drop_lines (S k) (drop (sublime.to_eol t) t)).
  by rewrite IH.
Qed.

Lemma take_lines_S k t :
  take_lines (S k) t
  = take_lines k t ++ take (sublime.to_eol (drop_lines k t)) (drop_lines k t).
Proof.
  revert t. induction k as [|k IH]; intros t.
  - simpl. by rewrite app_nil_r.
  - change (take_lines (S (S k)) t)
      with (take (sublime.to_eol t) t ++ take_lines (S k) (drop (sublime.to_eol t) t)).
    rewrite IH. simpl. by rewrite app_assoc.
Qed.

Lemma length_take_lines_S k t :
  length (take_lines (S k) t)
  = (length (take_lines k t) + sublime.to_eol (drop_lines k t))%nat.
Proof.
  rewrite take_lines_S, length_app, length_take.
  pose proof (to_eol_le (drop_lines k t)). lia.
Qed.

(** As long as the text has that many newlines, the first [k] lines hold
    exactly [k] of them and end in one. *)
Lemma take_lines_count k t :
  (k ≤ count_lf t)%nat →
  count_lf (take_lines k t) = k ∧ complete_lines (take_lines k t).
Proof.
  revert t. induction k as [|k IH]; intros t Hk; simpl.
  - split; [done|by left].
  - destruct (first_line_split t) as [l (Hl & Hc & Hd)]; [lia|].
    destruct (IH (drop (sublime.to_eol t) t)) as [IH1 IH2]; [lia|].
    rewrite count_lf_app, IH1, Hl, count_lf_app, Hc. split; [simpl; lia|].
    right. destruct IH2 as [->|[t0 ->]].
    + exists l. by rewrite app_nil_r.
    + exists ((l ++ [LF]) ++ t0). by rewrite app_assoc.
Qed.

Lemma drop_lines_count k t :
  (k ≤ count_lf t)%nat → count_lf (drop_lines k t) = (count_lf t - k)%nat.
Proof.
  intros Hk. destruct (take_lines_count k t Hk) as [Hc _].
  rewrite <-(take_drop_lines k t) at 2. rewrite count_lf_app. lia.
Qed.

Lemma complete_lines_app t u : complete_lines (t ++ u ++ [LF]).
Proof. right. exists (t ++ u). by rewrite app_assoc. Qed.

(** Dropping fewer lines than there are newlines keeps the last one. *)
Lemma drop_lines_complete k t :
  (k ≤ count_lf t)%nat → complete_lines t → complete_lines (drop_lines k t).
Proof.
  revert t. induction k as [|k IH]; intros t Hk Ht; [done|].
  simpl. destruct (first_line_split t) as [l (Hl & Hc & Hd)]; [lia|].
  apply IH; [lia|].
  destruct Ht as [->|[t0 Ht0]]; [by left|].
  destruct (decide (sublime.to_eol t = length t)) as [Heq|Hne].
  - left. rewrite Heq. by rewrite drop_all.
  - right. pose proof (to_eol_le t).
    destruct (drop (sublime.to_eol t) t) as [|c r] eqn:Hdrop using rev_ind.
    + apply (f_equal length) in Hdrop. rewrite length_drop in Hdrop. simpl in Hdrop. lia.
    + clear IHr. exists r. do 2 f_equal.
      assert (Hlast : last t = Some c).
      { rewrite <-(take_drop (sublime.to_eol t) t), Hdrop, app_assoc. apply last_snoc. }
      rewrite Ht0, last_snoc in Hlast. congruence.
Qed.

End lines.

(** ** The view operations on line boundaries *)
Section view_lines.

Implicit Types t u : str.
Implicit Types v : View.

Lemma rowcol_from_row t n row col :
  (sublime.rowcol_from t n row col).1 = row + Z.of_nat (count_lf (take n t)).
Proof.
  revert t row col. induction n as [|n IH]; intros [|c t] row col; simpl; try lia.
  destruct (Ascii.eqb c LF); rewrite IH; lia.
Qed.

Lemma rowcol_end v :
  (sublime.rowcol v (sublime.size v)).1 = Z.of_nat (count_lf (view_text v)).
Proof.
  unfold sublime.rowcol, sublime.size. rewrite rowcol_from_row, firstn_all. lia.
Qed.

Lemma insert_at_end v text :
  view_read_only v = false →
  sublime.insert v (sublime.size v) text = mkView false (view_text v ++ text).
Proof.
  intros Hw. unfold sublime.insert, sublime.size. rewrite Hw.
  by rewrite firstn_all, drop_all, app_nil_r.
Qed.

(** Right after a newline, or at the top, a line starts. *)
Lemma line_start_after_newline t1 t2 pos start :
  sublime.line_start_from ((t1 ++ [LF]) ++ t2) (length (t1 ++ [LF])) pos start
  = (pos + length (t1 ++ [LF]))%nat.
Proof.
  revert pos start. induction t1 as [|c t1 IH]; intros pos start.
  - cbn. destruct t2; cbn; lia.
  - cbn [app length sublime.line_start_from]. rewrite IH. lia.
Qed.

Lemma line_start_complete t1 t2 :
  complete_lines t1 →
  sublime.line_start_from (t1 ++ t2) (length t1) 0 0 = length t1.
Proof.
  intros [->|[t0 ->]]; [by destruct t2|]. by rewrite line_start_after_newline.
Qed.

Lemma full_line_at_line v j :
  (j ≤ count_lf (view_text v))%nat →
  sublime.full_line v (length (take_lines j (view_text v)))
  = line_region (view_text v) j.
Proof.
  intros Hj. unfold sublime.full_line, line_region.
  set (t := view_text v).
  assert (Hlen : (length (take_lines j t) ≤ length t)%nat).
  { rewrite <-(take_drop_lines j t) at 2. rewrite length_app. lia. }
  rewrite Nat.min_l by done.
  rewrite drop_length_take_lines, <-length_take_lines_S. f_equal.
  rewrite <-(take_drop_lines j t) at 1.
  apply line_start_complete, take_lines_count, Hj.
Qed.

Lemma collect_regions_lines v n j regions :
  (j + n ≤ count_lf (view_text v))%nat →
  panels.collect_regions v n (length (take_lines j (view_text v))) regions
  = regions ++ map (line_region (view_text v)) (seq j n).
Proof.
  revert j regions. induction n as [|n IH]; intros j regions Hn.
  - simpl. by rewrite app_nil_r.
  - cbn [panels.collect_regions]. rewrite full_line_at_line by lia.
    change (region_b (line_region (view_text v) j))
      with (length (take_lines (S j) (view_text v))).
    rewrite IH by lia. cbn [seq map]. by rewrite <-app_assoc.
Qed.

Lemma erase_line v t j u :
  view_read_only v = false →
  view_text v = take_lines (S j) t ++ u →
  sublime.erase v (line_region t j) = mkView false (take_lines j t ++ u).
Proof.
  intros Hw Ht. unfold sublime.erase, line_region. rewrite Hw, Ht. simpl region_a.
  simpl region_b. rewrite drop_app_length. f_equal.
  rewrite take_lines_S, <-app_assoc. by rewrite take_app_length.
Qed.

(** Erasing the regions of the first [n] lines, last one first, leaves
    what follows them. *)
Lemma erase_reversed_lines v t n u :
  view_read_only v = false →
  view_text v = take_lines n t ++ u →
  panels.erase_reversed v (map (line_region t) (seq 0 n)) = mkView false u.
Proof.
  unfold panels.erase_reversed. revert v.
  induction n as [|n IH]; intros v Hw Ht.
  - simpl in *. destruct v; simpl in *; by subst.
  - rewrite seq_S, map_app, rev_app_distr. simpl.
    rewrite (erase_line v t n u Hw Ht). by apply IH.
Qed.

(** The first loop of [run] on a writable view. *)
Lemma insert_messages v queue locals :
  view_read_only v = false →
  let text := view_text v ++ concat (map entry_text queue) in
  fold_left panels.insert_message queue (v, locals)
  = (mkView false text,
     match queue with
     | [] => locals
     | _ => Some (panels.mkLocals (Z.of_nat (count_lf text)) 0 [])
     end).
Proof.
  revert v locals. induction queue as [|entry queue IH]; intros v locals Hw; simpl.
  - rewrite app_nil_r. destruct v; simpl in *; by subst.
  - unfold panels.insert_message at 2. simpl.
    fold (entry_text entry). rewrite insert_at_end by done.
    rewrite IH by done. simpl. rewrite <-app_assoc. f_equal.
    destruct queue; [|done].
    simpl. rewrite rowcol_end. simpl. by rewrite !app_nil_r.
Qed.

Lemma entry_text_complete entry : ∃ t0, entry_text entry = t0 ++ [LF].
Proof.
  unfold entry_text, Str.format_line.
  eexists. rewrite !app_assoc. reflexivity.
Qed.

Lemma inserted_complete t queue :
  queue ≠ [] → complete_lines (t ++ concat (map entry_text queue)).
Proof.
  intros Hq. destruct queue as [|e queue _] using rev_ind; [done|].
  rewrite map_app, concat_app. simpl. rewrite app_nil_r.
  destruct (entry_text_complete e) as [t0 ->].
  right. exists (t ++ concat (map entry_text queue) ++ t0).
  by rewrite <-!app_assoc.
Qed.

Lemma excess_le text : (excess text ≤ count_lf text)%nat.
Proof. unfold excess, panels.SERVER_PANEL_MAX_LINES. lia. Qed.

(** [run] on a stored, non-empty queue. *)
Lemma run_flushes (table : panels.pending) v window_id queue :
  table !! window_id = Some queue →
  queue ≠ [] →
  let text := view_text v ++ concat (map entry_text queue) in
  panels.run table v window_id
  = Ok (delete window_id table, mkView true (drop_lines (excess text) text)).
Proof.
  intros Hq Hne text. unfold panels.run. rewrite Hq.
  rewrite insert_messages by done. simpl view_text. fold text.
  destruct queue as [|e queue]; [done|].
  simpl panels.total_lines. simpl panels.point. simpl panels.regions.
  fold (excess text).
  pose proof (excess_le text) as Hle.
  pose proof (collect_regions_lines (mkView false text) (excess text) 0 []) as Hc.
  simpl in Hc. rewrite Hc by done.
  rewrite (erase_reversed_lines _ text (excess text) (drop_lines (excess text) text));
    [done|done|].
  simpl. by rewrite take_drop_lines.
Qed.

Lemma run_absent (table : panels.pending) v window_id :
  table !! window_id = None →
  panels.run table v window_id = Raise (KeyError window_id) (table, v).
Proof. intros Hq. unfold panels.run. by rewrite Hq. Qed.

Lemma run_empty (table : panels.pending) v window_id :
  table !! window_id = Some [] →
  panels.run table v window_id
  = Raise (UnboundLocalError "total_lines")
      (delete window_id table, sublime.set_read_only v false).
Proof. intros Hq. unfold panels.run. by rewrite Hq. Qed.

End view_lines.

(** ** End-of-line normalisation *)
Section replace.


Lemma replace_crlf_crlf t :
  Str.replace (CR :: LF :: t) [CR; LF] [LF] = LF :: Str.replace t [CR; LF] [LF].
Proof. reflexivity. Qed.

Lemma replace_crlf_other c t :
  Str.startswith [CR; LF] (c :: t) = false →
  Str.replace (c :: t) [CR; LF] [LF] = c :: Str.replace t [CR; LF] [LF].
Proof.
  intros H. unfold Str.replace. cbn [Str.replace_from]. by rewrite H.
Qed.

End replace.

(** ** The flush command *)

(** C2: a completed [LspUpdateServerPanelCommand.run] on a non-empty queue
    leaves at most [SERVER_PANEL_MAX_LINES] complete lines in the panel.
    With [inserted] the panel text after all queued entries were appended
    and [total] its line count, the command erases the first
    [max 0 (total - 500)] lines of [inserted], whole and from the top, and
    keeps the rest. *)
Theorem run_keeps_max_lines (table : panels.pending) (v : View) (window_id : Z)
    (queue : list (str * str)) :
  table !! window_id = Some queue →
  queue ≠ [] →
  ∃ v',
    panels.run table v window_id = Ok (delete window_id table, v')
    ∧ let inserted := view_text v ++ concat (map entry_text queue) in
      let total := Z.of_nat (count_lf inserted) in
      let erased := Z.to_nat (Z.max 0 (total - panels.SERVER_PANEL_MAX_LINES)) in
      inserted = take_lines erased inserted ++ view_text v'
      ∧ count_lf (take_lines erased inserted) = erased
      ∧ complete_lines (take_lines erased inserted)
      ∧ Z.of_nat (count_lf (view_text v')) = Z.min total panels.SERVER_PANEL_MAX_LINES
      ∧ Z.of_nat (count_lf (view_text v')) ≤ 500
      ∧ complete_lines (view_text v').
Proof.
  intros Hq Hne. eexists. split; [by apply run_flushes|].
  cbn zeta. set (inserted := view_text v ++ _).
  fold (excess inserted). pose proof (excess_le inserted) as Hle.
  simpl view_text.
  destruct (take_lines_count _ _ Hle) as [Hc Hcomplete].
  repeat split.
  - by rewrite take_drop_lines.
  - done.
  - done.
  - rewrite drop_lines_count by done.
    unfold excess, panels.SERVER_PANEL_MAX_LINES in *. lia.
  - rewrite drop_lines_count by done.
    unfold excess, panels.SERVER_PANEL_MAX_LINES in *. lia.
  - apply drop_lines_complete; [done|]. by apply inserted_complete.
Qed.

Lemma run_keeps_max_lines_witness :
  ∃ v', panels.run {[ 7 := [(str_of "srv", str_of "started")] ]}
          (mkView true (str_of "log")) 7
        = Ok (delete 7 {[ 7 := [(str_of "srv", str_of "started")] ]}, v').
Proof.
  destruct (run_keeps_max_lines {[ 7 := [(str_of "srv", str_of "started")] ]}
              (mkView true (str_of "log")) 7 [(str_of "srv", str_of "started")])
    as (v' & Hrun & _).
  - vm_compute. reflexivity.
  - discriminate.
  - exists v'. exact Hrun.
Defined.

(** ** The debounced server log *)
Section server_log.

Implicit Types st later : panels.State.
Implicit Types t : panels.Timer.

(** Whatever happens, [run] takes the window's entry out of the table. *)
Lemma run_table (table : panels.pending) v window_id :
  (state_of (panels.run table v window_id)).1 = delete window_id table.
Proof.
  unfold panels.run. destruct (table !! window_id) as [queue|] eqn:Hq.
  - destruct (fold_left _ _ _) as [v' [l|]]; done.
  - simpl. by rewrite delete_id.
Qed.

Lemma run_completed (table : panels.pending) v window_id :
  completed (panels.run table v window_id) = true
  ↔ ∃ queue, table !! window_id = Some queue ∧ queue ≠ [].
Proof.
  split.
  - destruct (table !! window_id) as [[|entry queue]|] eqn:Hq.
    + by rewrite run_empty.
    + eauto.
    + by rewrite run_absent.
  - intros (queue & Hq & Hne). by rewrite (run_flushes _ _ _ _ Hq Hne).
Qed.

(** [update_server_panel] past its two guards. *)
Lemma update_server_panel_enqueues st window prefix message e panel :
  window_api.window_is_valid (panels.editor st) window = true →
  panels.ensure_server_panel (panels.editor st) window = (e, Some panel) →
  window_api.truthy (Some panel) = true →
  let queue := default [] (panels.to_be_processed st !! window) ++ [(prefix, message)] in
  panels.update_server_panel st window prefix message
  = panels.mkState e (<[window := queue]> (panels.to_be_processed st))
      (panels.timers st
       ++ [panels.mkTimer panel window (length queue) panels.SERVER_PANEL_DEBOUNCE_TIME_MS]).
Proof.
  intros Hvalid Hpanel Htrue queue. unfold panels.update_server_panel.
  rewrite Hvalid, Hpanel. cbn [negb]. by rewrite Htrue.
Qed.

(** [update_server_panel] stopped by a guard leaves table and timers alone. *)
Lemma update_server_panel_table st window prefix message :
  let st' := panels.update_server_panel st window prefix message in
  (panels.to_be_processed st' = panels.to_be_processed st
   ∧ panels.timers st' = panels.timers st)
  ∨ (∃ e panel,
       window_api.window_is_valid (panels.editor st) window = true
       ∧ panels.ensure_server_panel (panels.editor st) window = (e, Some panel)
       ∧ window_api.truthy (Some panel) = true).
Proof.
  intros st'. subst st'. unfold panels.update_server_panel.
  destruct (window_api.window_is_valid _ _) eqn:Hvalid; cbn [negb]; [|by left].
  destruct (panels.ensure_server_panel _ _) as [e [panel|]] eqn:Hpanel; [|by left].
  destruct (window_api.truthy (Some panel)) eqn:Htrue; cbn [negb]; [|by left].
  right. by exists e, panel.
Qed.

Lemma condition_true later t :
  window_api.truthy (Some (panels.timer_panel t)) = true →
  panels.condition later t = true
  ↔ window_api.view_is_valid (panels.editor later) (panels.timer_panel t) = true
    ∧ ∃ queue, panels.to_be_processed later !! panels.timer_window_id t = Some queue
        ∧ (10 ≤ length queue ∨ length queue = panels.timer_previous_length t)%nat.
Proof.
  intros Htrue. unfold panels.condition. rewrite Htrue. cbn [negb].
  destruct (window_api.view_is_valid _ _); cbn [negb]; [|by intuition].
  destruct (panels.to_be_processed later !! _) as [queue|];
    [|by split; [|intros (_ & ? & ? & _)]].
  destruct (Nat.leb_spec 10 (length queue)).
  - naive_solver.
  - rewrite Nat.eqb_eq. split; [naive_solver|].
    intros (_ & queue' & [= <-] & [?|?]); [lia|done].
Qed.

Lemma condition_timers later t timers :
  panels.condition
    (panels.mkState (panels.editor later) (panels.to_be_processed later) timers) t
  = panels.condition later t.
Proof. reflexivity. Qed.

Lemma queues_nonempty_delete table window_id :
  queues_nonempty table → queues_nonempty (delete window_id table).
Proof.
  intros H w queue [_ Hq]%lookup_delete_Some. by eapply H.
Qed.

Lemma step_table_other st a :
  match a with
  | panels.CallUpdateServerPanel _ _ _ | panels.TimerElapses _ => True
  | _ =>
      panels.to_be_processed (state_of (panels.step st a)) = panels.to_be_processed st
      ∧ panels.timers (state_of (panels.step st a)) = panels.timers st
  end.
Proof. by destruct a. Qed.

(** What a timer leaves behind. *)
Lemma timer_elapses_state st i :
  let st' := state_of (panels.timer_elapses st i) in
  match panels.timers st !! i with
  | None => st' = st
  | Some t =>
      panels.timers st' = delete i (panels.timers st)
      ∧ panels.to_be_processed st'
        = if panels.condition st t
          then delete (panels.timer_window_id t) (panels.to_be_processed st)
          else panels.to_be_processed st
  end.
Proof.
  unfold panels.timer_elapses. destruct (panels.timers st !! i) as [t|]; [|done].
  rewrite condition_timers.
  destruct (panels.condition st t) eqn:Hc; [|done].
  unfold panels.flush. cbn [panels.editor panels.to_be_processed panels.timers].
  assert (Hv : is_Some (views (panels.editor st) !! panels.timer_panel t)
               ∧ window_api.truthy (Some (panels.timer_panel t)) = true).
  { unfold panels.condition in Hc.
    destruct (window_api.truthy _); [|done]. cbn [negb] in Hc.
    unfold window_api.view_is_valid in Hc.
    destruct (bool_decide_reflect (is_Some (views (panels.editor st) !! panels.timer_panel t)));
      done. }
  destruct Hv as [[view Hview] ->]. rewrite Hview. cbn [negb].
  pose proof (run_table (panels.to_be_processed st) view (panels.timer_window_id t)) as Ht.
  destruct (panels.run _ _ _) as [r|e r]; simpl in *; by rewrite Ht.
Qed.

Lemma step_queues_nonempty st a :
  queues_nonempty (panels.to_be_processed st) →
  queues_nonempty (panels.to_be_processed (state_of (panels.step st a))).
Proof.
  intros Hinv. destruct a as [window prefix message|i| | | | |];
    try (by cbn [panels.step state_of panels.with_editor panels.to_be_processed]).
  - cbn [panels.step state_of].
    destruct (update_server_panel_table st window prefix message)
      as [[-> _]|(e & panel & Hvalid & Hpanel & Htrue)]; [done|].
    rewrite (update_server_panel_enqueues _ _ _ _ _ _ Hvalid Hpanel Htrue).
    cbn [panels.to_be_processed].
    intros w queue [[_ <-]|[_ Hq]]%lookup_insert_Some; [|by eapply Hinv].
    by destruct (default [] _).
  - cbn [panels.step]. pose proof (timer_elapses_state st i) as H. cbn zeta in H.
    destruct (panels.timers st !! i) as [t|]; [|by rewrite H].
    destruct H as [_ ->]. destruct (panels.condition st t); [|done].
    by apply queues_nonempty_delete.
Qed.

Lemma exec_snoc st trace a :
  panels.exec st (trace ++ [a]) = state_of (panels.step (panels.exec st trace) a).
Proof. unfold panels.exec. by rewrite fold_left_app. Qed.

Lemma reachable_queues_nonempty st :
  panels.reachable st → queues_nonempty (panels.to_be_processed st).
Proof.
  intros (e & trace & ->).
  induction trace as [|a trace IH] using rev_ind.
  - intros w queue. cbn. by rewrite lookup_empty.
  - rewrite exec_snoc. by apply step_queues_nonempty.
Qed.

(** A timer of a process whose queues are non-empty never makes [run] fail. *)
Lemma timer_elapses_completes st i :
  queues_nonempty (panels.to_be_processed st) →
  completed (panels.timer_elapses st i) = true.
Proof.
  intros Hinv. unfold panels.timer_elapses.
  destruct (panels.timers st !! i) as [t|]; [|done].
  rewrite condition_timers. destruct (panels.condition st t) eqn:Hc; [|done].
  unfold panels.flush. cbn [panels.editor panels.to_be_processed panels.timers].
  destruct (window_api.truthy _); [|done]. cbn [negb].
  destruct (views (panels.editor st) !! panels.timer_panel t) as [view|]; [|done].
  assert (Hrun : completed (panels.run (panels.to_be_processed st) view
                              (panels.timer_window_id t)) = true).
  { apply run_completed. unfold panels.condition in Hc.
    destruct (negb _); [done|]. destruct (negb _); [done|].
    destruct (panels.to_be_processed st !! _) as [queue|] eqn:Hq; [|done].
    exists queue. split; [done|]. by eapply Hinv. }
  by destruct (panels.run _ _ _).
Qed.

End server_log.

(** C1: a call [update_server_panel(window, prefix, message)] on a valid
    window whose panel exists appends the pair to the window's pending
    queue and schedules one debounced flush of 80 ms.  The condition of
    that flush holds in a later state exactly when the panel is still
    valid, the window id still has a queue, and that queue has 10 or more
    entries or has the length seen at enqueue time.  When the timer
    elapses the flush runs if the condition holds, and otherwise nothing
    but the timer changes. *)
Theorem update_server_panel_schedules (st : panels.State) (window : Z)
    (prefix message : str) (e : Editor) (panel : Z) :
  window_api.window_is_valid (panels.editor st) window = true →
  panels.ensure_server_panel (panels.editor st) window = (e, Some panel) →
  window_api.truthy (Some panel) = true →
  let queue := default [] (panels.to_be_processed st !! window) ++ [(prefix, message)] in
  let t := panels.mkTimer panel window (length queue) panels.SERVER_PANEL_DEBOUNCE_TIME_MS in
  panels.update_server_panel st window prefix message
  = panels.mkState e (<[window := queue]> (panels.to_be_processed st)) (panels.timers st ++ [t])
  ∧ panels.timer_timeout_ms t = 80
  ∧ (∀ later : panels.State,
       panels.condition later t = true
       ↔ window_api.view_is_valid (panels.editor later) panel = true
         ∧ ∃ current, panels.to_be_processed later !! window = Some current
             ∧ (10 ≤ length current ∨ length current = length queue)%nat)
  ∧ (∀ (later : panels.State) (i : nat),
       panels.timers later !! i = Some t →
       let fired := panels.mkState (panels.editor later) (panels.to_be_processed later)
                      (delete i (panels.timers later)) in
       panels.timer_elapses later i
       = if panels.condition later t then panels.flush fired t else Ok fired).
Proof.
  intros Hvalid Hpanel Htrue queue t. repeat split.
  - by apply update_server_panel_enqueues.
  - by apply (condition_true later t).
  - by apply (condition_true later t).
  - by apply (condition_true later t).
  - intros later i Hi fired. unfold panels.timer_elapses. by rewrite Hi.
Qed.

Lemma update_server_panel_schedules_witness :
  panels.update_server_panel (panels.loaded one_window) 1 (str_of "srv") (str_of "started")
  = panels.mkState one_panel {[ 1 := [(str_of "srv", str_of "started")] ]}
      [panels.mkTimer 1 1 1 80].
Proof.
  destruct (update_server_panel_schedules (panels.loaded one_window) 1
              (str_of "srv") (str_of "started") one_panel 1) as [Hupdate _].
  - vm_compute. reflexivity.
  - vm_compute. reflexivity.
  - reflexivity.
  - rewrite Hupdate. reflexivity.
Defined.

(** C7: [LspUpdateServerPanelCommand.run] completes exactly when a
    non-empty list is stored for [window_id]; with no entry the [pop] raises
    [KeyError], with an empty list [total_lines] is unbound and the
    trimming loop raises a [NameError].  In a process that started with an
    empty table and only ever enqueued through [update_server_panel], every
    stored list is non-empty and no elapsing timer, nor any other step,
    raises. *)
Theorem run_error_branch_unreachable :
  (∀ (table : panels.pending) (v : View) (window_id : Z),
     completed (panels.run table v window_id) = true
     ↔ ∃ queue, table !! window_id = Some queue ∧ queue ≠ [])
  ∧ (∀ (table : panels.pending) (v : View) (window_id : Z),
       table !! window_id = None →
       panels.run table v window_id = Raise (KeyError window_id) (table, v))
  ∧ (∀ (table : panels.pending) (v : View) (window_id : Z),
       table !! window_id = Some [] →
       ∃ e r, panels.run table v window_id = Raise e r ∧ is_NameError e = true)
  ∧ (∀ (later : panels.State) (t : panels.Timer),
       panels.to_be_processed later !! panels.timer_window_id t = None →
       panels.condition later t = false)
  ∧ (∀ st : panels.State,
       panels.reachable st →
       queues_nonempty (panels.to_be_processed st)
       ∧ ∀ a, completed (panels.step st a) = true).
Proof.
  split; [exact run_completed|].
  split; [exact run_absent|].
  split.
  { intros table v window_id Hq. rewrite (run_empty _ _ _ Hq). by eexists _, _. }
  split.
  { intros later t Hq. unfold panels.condition. rewrite Hq.
    destruct (window_api.truthy _); [|done].
    by destruct (window_api.view_is_valid _ _). }
  intros st Hst. pose proof (reachable_queues_nonempty st Hst) as Hinv.
  split; [done|]. intros a. destruct a; try done.
  by apply timer_elapses_completes.
Qed.

Lemma run_error_branch_unreachable_witness :
  completed
    (panels.step
       (panels.exec (panels.loaded one_window)
          [panels.CallUpdateServerPanel 1 (str_of "srv") (str_of "started")])
       (panels.TimerElapses 0)) = true.
Proof.
  destruct run_error_branch_unreachable as (_ & _ & _ & _ & Hreach).
  apply Hreach. exists one_window. eexists. reflexivity.
Defined.

(** ** The public names of the package *)

(** C4: the package-level [filename_to_uri] returns [None] for every input,
    never a string, and does not look at its argument; it is the function
    defined in the package body, not an import from [.core.url], that the
    exported name is bound to. *)
Theorem filename_to_uri_returns_none :
  (∀ filename : str,
     plugin.filename_to_uri filename = plugin.PyNone
     ∧ (∀ uri, plugin.filename_to_uri filename ≠ plugin.PyStr uri)
     ∧ (∀ other, plugin.filename_to_uri other = plugin.filename_to_uri filename))
  ∧ plugin.namespace !! "filename_to_uri" = Some plugin.Function
  ∧ "filename_to_uri" ∈ plugin.dunder_all plugin.namespace.
Proof.
  split; [by intros filename|].
  split; [by vm_compute|].
  apply (bool_decide_unpack _). by vm_compute.
Qed.

(** C5: [__all__] lists ['uri_to_filename'], which no statement of the
    package body binds; reading the attribute fails and so does a
    star-import, on that name.  It is the only listed name left unbound. *)
Theorem uri_to_filename_unbound :
  "uri_to_filename" ∈ plugin.dunder_all plugin.namespace
  ∧ (∀ module, plugin.ImportFrom module "uri_to_filename" ∉ plugin.body)
  ∧ (plugin.Def "uri_to_filename" ∉ plugin.body)
  ∧ plugin.namespace !! "uri_to_filename" = None
  ∧ plugin.getattr plugin.namespace "uri_to_filename"
    = Raise (AttributeError "uri_to_filename") None
  ∧ (∀ target, ∃ partial,
       plugin.star_import plugin.namespace target
       = Raise (AttributeError "uri_to_filename") partial)
  ∧ (∀ name, name ∈ plugin.dunder_all plugin.namespace →
       plugin.namespace !! name = None → name = "uri_to_filename").
Proof.
  split; [apply (bool_decide_unpack _); by vm_compute|].
  split.
  { intros module Hin. unfold plugin.body in Hin.
    repeat (apply elem_of_cons in Hin as [Hin|Hin]; [discriminate Hin|]).
    by apply elem_of_nil in Hin. }
  split.
  { intros Hin. unfold plugin.body in Hin.
    repeat (apply elem_of_cons in Hin as [Hin|Hin]; [discriminate Hin|]).
    by apply elem_of_nil in Hin. }
  split; [by vm_compute|].
  split; [by vm_compute|].
  split.
  { intros target. eexists. reflexivity. }
  intros name Hin Hnone.
  change (plugin.dunder_all plugin.namespace) with
    [ "__version__"; "AbstractPlugin"; "ClientConfig"; "css";
      "filename_to_uri"; "LanguageConfig"; "Notification";
      "register_plugin"; "Request"; "Response"; "Session";
      "SessionBufferProtocol"; "unregister_plugin"; "uri_to_filename";
      "WorkspaceFolder" ]%string in Hin.
  repeat (apply elem_of_cons in Hin as [->|Hin];
          [first [reflexivity | by vm_compute in Hnone]|]).
  by apply elem_of_nil in Hin.
Qed.

(** C6: [register_plugin] and [unregister_plugin] are both imported from
    the sessions core module by the package body, bound in its namespace,
    and listed in [__all__]. *)
Theorem plugin_hook_api_exposed :
  plugin.ImportFrom ".core.sessions" "register_plugin" ∈ plugin.body
  ∧ plugin.ImportFrom ".core.sessions" "unregister_plugin" ∈ plugin.body
  ∧ plugin.namespace !! "register_plugin"
    = Some (plugin.Imported ".core.sessions" "register_plugin")
  ∧ plugin.namespace !! "unregister_plugin"
    = Some (plugin.Imported ".core.sessions" "unregister_plugin")
  ∧ "register_plugin" ∈ plugin.dunder_all plugin.namespace
  ∧ "unregister_plugin" ∈ plugin.dunder_all plugin.namespace.
Proof.
  repeat split; try (by vm_compute).
  - unfold plugin.body. do 5 apply list_elem_of_further. apply list_elem_of_here.
  - unfold plugin.body. do 8 apply list_elem_of_further. apply list_elem_of_here.
  - apply (bool_decide_unpack _). by vm_compute.
  - apply (bool_decide_unpack _). by vm_compute.
Qed.

(** ** The Dispatcher *)
Section dispatcher_props.

Implicit Types d : dispatcher.Dispatcher.
Implicit Types log : list (Z * dispatcher.outcome).

Lemma count_resolutions_absent log id :
  id ∉ log.*1 → length (filter (λ r, r.1 = id) log) = O.
Proof.
  induction log as [|[id' o] log IH]; [done|].
  rewrite fmap_cons, not_elem_of_cons. simpl. intros [Hne Hnotin].
  rewrite filter_cons_False by (simpl; congruence). by apply IH.
Qed.

Lemma count_resolutions_present log id :
  NoDup log.*1 → id ∈ log.*1 → length (filter (λ r, r.1 = id) log) = 1%nat.
Proof.
  induction log as [|[id' o] log IH]; [by intros _ ?%elem_of_nil|].
  rewrite fmap_cons. simpl. intros [Hnotin Hnodup]%NoDup_cons [->|Hin]%elem_of_cons.
  - rewrite filter_cons_True by done. simpl.
    by rewrite count_resolutions_absent.
  - rewrite filter_cons_False; [by apply IH|].
    simpl. intros ->. done.
Qed.

Lemma init_ok : dispatcher_ok dispatcher.init.
Proof.
  split; simpl.
  - done.
  - constructor.
  - by intros id ?%elem_of_nil.
  - intros id [m Hm]. by rewrite lookup_empty in Hm.
  - lia.
Qed.

Lemma send_request_ok d method :
  dispatcher_ok d → dispatcher_ok (dispatcher.send_request d method).
Proof.
  intros [Hnext Hnodup Hres Hpend Halloc]. split; simpl.
  - lia.
  - done.
  - intros id Hin. destruct (Hres id Hin) as [Hnone Hlt].
    rewrite lookup_insert_ne by lia. split; [done|lia].
  - intros id [m [[<- _]|[_ Hm]]%lookup_insert_Some]; [lia|].
    specialize (Hpend id (mk_is_Some _ _ Hm)). lia.
  - intros id Hid. destruct (decide (id = dispatcher.next_id d)) as [->|Hne].
    + left. rewrite lookup_insert_eq. by eexists.
    + rewrite lookup_insert_ne by done. apply Halloc. lia.
Qed.

(** Taking a pending id out and logging its outcome keeps the books. *)
Lemma resolve_ok d id o next sent discarded :
  dispatcher_ok d →
  is_Some (dispatcher.pending d !! id) →
  next = dispatcher.next_id d →
  dispatcher_ok
    (dispatcher.mkDispatcher (delete id (dispatcher.pending d)) next sent
       (dispatcher.resolved d ++ [(id, o)]) discarded).
Proof.
  intros [Hnext Hnodup Hres Hpend Halloc] Hid ->. split; simpl.
  - done.
  - rewrite fmap_app. apply NoDup_app. split; [done|]. split.
    + intros id' Hin ->%list_elem_of_singleton.
      destruct (Hres id Hin) as [Hnone _]. rewrite Hnone in Hid. by destruct Hid.
    + apply NoDup_singleton.
  - intros id'. rewrite fmap_app, elem_of_app.
    intros [Hin| ->%list_elem_of_singleton].
    + destruct (Hres id' Hin) as [Hnone Hlt]. split; [|done].
      rewrite lookup_delete_None. by right.
    + split; [by rewrite lookup_delete_eq|by apply Hpend].
  - intros id' [m [_ Hm]%lookup_delete_Some]. apply Hpend. by eexists.
  - intros id' Hid'. rewrite fmap_app, elem_of_app.
    destruct (decide (id' = id)) as [->|Hne].
    + right. right. by apply list_elem_of_singleton.
    + rewrite lookup_delete_ne by done.
      destruct (Halloc id' Hid'); [by left|by right; left].
Qed.

Lemma handle_ok d ev : dispatcher_ok d → dispatcher_ok (dispatcher.handle d ev).
Proof.
  intros Hok. destruct ev as [method|id|id|id result]; simpl.
  - by apply send_request_ok.
  - unfold dispatcher.timeout_elapses.
    destruct (dispatcher.pending d !! id) eqn:Hid; [|done].
    apply resolve_ok; [done|by eexists|done].
  - unfold dispatcher.cancel.
    destruct (dispatcher.pending d !! id) eqn:Hid; [|done].
    apply resolve_ok; [done|by eexists|done].
  - unfold dispatcher.receive_response.
    destruct (dispatcher.pending d !! id) eqn:Hid.
    + apply resolve_ok; [done|by eexists|done].
    + by destruct Hok.
Qed.

Lemma run_ok events : dispatcher_ok (dispatcher.run events).
Proof.
  unfold dispatcher.run. induction events as [|ev events IH] using rev_ind.
  - apply init_ok.
  - rewrite fold_left_app. by apply handle_ok.
Qed.

(** One of the three resolving events, on a pending id and on one that is
    not. *)
Lemma handle_pending d ev id o :
  resolves ev = Some (id, o) →
  is_Some (dispatcher.pending d !! id) →
  dispatcher.resolved (dispatcher.handle d ev) = dispatcher.resolved d ++ [(id, o)]
  ∧ dispatcher.pending (dispatcher.handle d ev) = delete id (dispatcher.pending d).
Proof.
  intros Hev [m Hm]. destruct ev; simplify_eq/=.
  - unfold dispatcher.timeout_elapses. by rewrite Hm.
  - unfold dispatcher.cancel. by rewrite Hm.
  - unfold dispatcher.receive_response. by rewrite Hm.
Qed.

Lemma handle_not_pending d ev id o :
  resolves ev = Some (id, o) →
  dispatcher.pending d !! id = None →
  dispatcher.resolved (dispatcher.handle d ev) = dispatcher.resolved d
  ∧ dispatcher.pending (dispatcher.handle d ev) = dispatcher.pending d.
Proof.
  intros Hev Hm. destruct ev; simplify_eq/=.
  - unfold dispatcher.timeout_elapses. by rewrite Hm.
  - unfold dispatcher.cancel. by rewrite Hm.
  - unfold dispatcher.receive_response. by rewrite Hm.
Qed.

End dispatcher_props.

(** C8: in every run of the Dispatcher, a request id that is pending has
    not been resolved; the first timeout, cancellation or response for it
    resolves it with that event's outcome and removes it; an id that was
    handed out and is no longer pending has been resolved exactly once, and
    no later event resolves it again. *)
Theorem dispatcher_resolves_once (events : list dispatcher.event) (id : Z) :
  let d := dispatcher.run events in
  NoDup (dispatcher.resolved d).*1
  ∧ (dispatcher.resolutions d id ≤ 1)%nat
  ∧ (is_Some (dispatcher.pending d !! id) → dispatcher.resolutions d id = O)
  ∧ (0 ≤ id < dispatcher.next_id d → dispatcher.pending d !! id = None →
     dispatcher.resolutions d id = 1%nat)
  ∧ (∀ ev o, resolves ev = Some (id, o) → is_Some (dispatcher.pending d !! id) →
     dispatcher.resolved (dispatcher.handle d ev) = dispatcher.resolved d ++ [(id, o)]
     ∧ dispatcher.pending (dispatcher.handle d ev) !! id = None
     ∧ dispatcher.resolutions (dispatcher.handle d ev) id = 1%nat)
  ∧ (∀ ev, dispatcher.pending d !! id = None →
     dispatcher.resolutions (dispatcher.handle d ev) id = dispatcher.resolutions d id).
Proof.
  intros d. pose proof (run_ok events) as Hok. fold d in Hok.
  destruct Hok as [Hnext Hnodup Hres Hpend Halloc].
  assert (Hzero : is_Some (dispatcher.pending d !! id) → dispatcher.resolutions d id = O).
  { intros [m Hm]. apply count_resolutions_absent. intros Hin.
    destruct (Hres id Hin) as [Hnone _]. congruence. }
  assert (Hone : 0 ≤ id < dispatcher.next_id d → dispatcher.pending d !! id = None →
                 dispatcher.resolutions d id = 1%nat).
  { intros Hid Hnone. apply count_resolutions_present; [done|].
    destruct (Halloc id Hid) as [[m Hm]|Hin]; [congruence|done]. }
  split; [done|]. split.
  { destruct (decide (id ∈ (dispatcher.resolved d).*1)) as [Hin|Hnotin].
    - unfold dispatcher.resolutions. by rewrite count_resolutions_present.
    - unfold dispatcher.resolutions. rewrite count_resolutions_absent by done. lia. }
  split; [done|]. split; [done|]. split.
  - intros ev o Hev Hid. destruct (handle_pending d ev id o Hev Hid) as [Hlog Hmap].
    split; [done|]. split; [by rewrite Hmap, lookup_delete_eq|].
    unfold dispatcher.resolutions. rewrite Hlog, filter_app, length_app.
    fold (dispatcher.resolutions d id). rewrite (Hzero Hid).
    by rewrite filter_cons_True.
  - intros ev Hnone. destruct (resolves ev) as [[id' o]|] eqn:Hev.
    + destruct (dispatcher.pending d !! id') as [m|] eqn:Hm.
      * destruct (handle_pending d ev id' o Hev) as [Hlog _]; [by eexists|].
        unfold dispatcher.resolutions. rewrite Hlog, filter_app, length_app.
        rewrite filter_cons_False; [simpl; lia|]. simpl. congruence.
      * destruct (handle_not_pending d ev id' o Hev Hm) as [Hlog _].
        unfold dispatcher.resolutions. by rewrite Hlog.
    + by destruct ev.
Qed.

Lemma dispatcher_resolves_once_witness :
  dispatcher.resolutions
    (dispatcher.run [dispatcher.SendRequest "textDocument/hover";
                     dispatcher.TimeoutElapses 0;
                     dispatcher.ReceiveResponse 0 42]) 0 = 1%nat.
Proof.
  destruct (dispatcher_resolves_once
              [dispatcher.SendRequest "textDocument/hover";
               dispatcher.TimeoutElapses 0;
               dispatcher.ReceiveResponse 0 42] 0) as (_ & _ & _ & Hone & _).
  apply Hone.
  - split; [done|reflexivity].
  - reflexivity.
Defined.

(** ** Every entry is written once *)
Section accounting.

Implicit Types st : panels.State.



Lemma exec_cons st a trace :
  panels.exec st (a :: trace) = panels.exec (state_of (panels.step st a)) trace.
Proof. reflexivity. Qed.


(** A timer whose condition holds writes the whole queue to its panel. *)
Lemma timer_elapses_flushes st i t :
  queues_nonempty (panels.to_be_processed st) →
  panels.timers st !! i = Some t →
  panels.condition st t = true →
  ∃ view queue,
    views (panels.editor st) !! panels.timer_panel t = Some view
    ∧ panels.to_be_processed st !! panels.timer_window_id t = Some queue
    ∧ flushes st (panels.TimerElapses i) (panels.timer_window_id t) = queue
    ∧ panels.timer_elapses st i
      = Ok (panels.mkState
              (window_api.on_view (panels.editor st) (panels.timer_panel t)
                 (λ _, mkView true (flushed_text (view_text view) queue)))
              (delete (panels.timer_window_id t) (panels.to_be_processed st))
              (delete i (panels.timers st))).
Proof.
  intros Hinv Hi Hc. unfold panels.timer_elapses, flushes. rewrite Hi, condition_timers, Hc.
  rewrite bool_decide_eq_true_2 by done. cbn [andb].
  unfold panels.condition in Hc. unfold panels.flush.
  cbn [panels.editor panels.to_be_processed panels.timers].
  destruct (window_api.truthy _); [|done]. cbn [negb] in *.
  unfold window_api.view_is_valid in Hc.
  destruct (views (panels.editor st) !! panels.timer_panel t) as [view|] eqn:Hview;
    [|by rewrite bool_decide_eq_false_2 in Hc by (by intros [??])].
  destruct (panels.to_be_processed st !! panels.timer_window_id t) as [queue|] eqn:Hq;
    [|by destruct (negb _)].
  exists view, queue. repeat split.
  by rewrite (run_flushes _ _ _ _ Hq (Hinv _ _ Hq)).
Qed.

End accounting.

(** ** Which panel a flush writes to *)
Section wiring.

Implicit Types e : Editor.

Lemma evolves_refl e : evolves e e.
Proof. by split. Qed.

Lemma evolves_trans e1 e2 e3 : evolves e1 e2 → evolves e2 e3 → evolves e1 e3.
Proof.
  intros [N1 V1 P1] [N2 V2 P2]. split.
  - lia.
  - intros id Hid H3. apply V1; [done|]. apply V2; [lia|done].
  - intros w name id Hid H3 Hp. apply P2; [lia|done|].
    apply P1; [done| |done]. apply V2; [lia|done].
Qed.

Lemma timer_wired_evolves e e' t : evolves e e' → timer_wired e t → timer_wired e' t.
Proof.
  intros [N V P] [Hlt Hpanel]. split; [lia|].
  intros Hlive. apply P; [done|done|]. apply Hpanel. by apply V.
Qed.

Lemma panel_of_unfold e window name id :
  panel_of e window name id
  ↔ ∃ w, windows e !! window = Some w ∧ window_panels w !! name = Some id.
Proof.
  unfold panel_of, window_api.find_output_panel.
  destruct (windows e !! window) as [w|]; simpl.
  - split; [by exists w|]. by intros (w' & [= <-] & Hp).
  - split; [done|]. by intros (w' & ? & _).
Qed.

Lemma on_view_wf e view f : editor_wf e → editor_wf (window_api.on_view e view f).
Proof.
  intros [V P]. split; simpl.
  - intros id Hid. apply V. revert Hid. rewrite lookup_alter.
    case_decide; [subst|done]. by rewrite fmap_is_Some.
  - exact P.
Qed.

Lemma on_view_evolves e view f : evolves e (window_api.on_view e view f).
Proof.
  split; simpl.
  - lia.
  - intros id _. rewrite lookup_alter. case_decide; [subst|done]. by rewrite fmap_is_Some.
  - done.
Qed.

Lemma create_output_panel_wf e window name :
  editor_wf e → editor_wf (window_api.create_output_panel e window name).1.
Proof.
  intros [V P]. unfold window_api.create_output_panel.
  destruct (windows e !! window) as [w|] eqn:Hw; [|done].
  destruct (window_panels w !! name) as [id|] eqn:Hid; [done|].
  split; simpl.
  - intros id [v [[<- _]|[_ Hv]]%lookup_insert_Some]; [lia|].
    specialize (V id (mk_is_Some _ _ Hv)). lia.
  - intros w' name' id (w'' & Hw'' & Hp)%panel_of_unfold. simpl in Hw''.
    apply lookup_insert_Some in Hw'' as [[<- <-]|[Hne Hw'']].
    + simpl in Hp. apply lookup_insert_Some in Hp as [[_ <-]|[_ Hp]]; [lia|].
      assert (id < next_view_id e); [|lia].
      apply (P window name'). apply panel_of_unfold. eauto.
    + assert (id < next_view_id e); [|lia].
      apply (P w' name'). apply panel_of_unfold. eauto.
Qed.

Lemma create_output_panel_evolves e window name :
  evolves e (window_api.create_output_panel e window name).1.
Proof.
  unfold window_api.create_output_panel.
  destruct (windows e !! window) as [w|] eqn:Hw; [|apply evolves_refl].
  destruct (window_panels w !! name) as [id|] eqn:Hid; [apply evolves_refl|].
  split; simpl.
  - lia.
  - intros id Hlt. rewrite lookup_insert_ne by lia. done.
  - intros w' name' id Hlt _ (w'' & Hw'' & Hp)%panel_of_unfold.
    apply panel_of_unfold. simpl.
    destruct (decide (w' = window)) as [->|Hne].
    + rewrite lookup_insert_eq. eexists. split; [done|]. simpl.
      rewrite lookup_insert_ne; [congruence|]. intros <-. congruence.
    + rewrite lookup_insert_ne by done. eauto.
Qed.

Lemma destroy_output_panel_wf e window name :
  editor_wf e → editor_wf (window_api.destroy_output_panel e window name).
Proof.
  intros [V P]. unfold window_api.destroy_output_panel.
  destruct (windows e !! window) as [w|] eqn:Hw; [|done].
  destruct (window_panels w !! name) as [id|] eqn:Hid; [|done].
  split; simpl.
  - intros id' [v [_ Hv]%lookup_delete_Some]. apply V. by eexists.
  - intros w' name' id' (w'' & Hw'' & Hp)%panel_of_unfold. simpl in Hw''.
    apply lookup_insert_Some in Hw'' as [[<- <-]|[Hne Hw'']].
    + simpl in Hp. apply lookup_delete_Some in Hp as [_ Hp].
      apply (P window name'). apply panel_of_unfold. eauto.
    + apply (P w' name'). apply panel_of_unfold. eauto.
Qed.

Lemma destroy_output_panel_evolves e window name :
  evolves e (window_api.destroy_output_panel e window name).
Proof.
  unfold window_api.destroy_output_panel.
  destruct (windows e !! window) as [w|] eqn:Hw; [|apply evolves_refl].
  destruct (window_panels w !! name) as [id|] eqn:Hid; [|apply evolves_refl].
  split; simpl.
  - lia.
  - intros id' _ [v [_ Hv]%lookup_delete_Some]. by eexists.
  - intros w' name' id' _ [v [Hne Hv]%lookup_delete_Some] (w'' & Hw'' & Hp)%panel_of_unfold.
    apply panel_of_unfold. simpl.
    destruct (decide (w' = window)) as [->|Hnew].
    + rewrite lookup_insert_eq. eexists. split; [done|]. simpl.
      rewrite lookup_delete_ne; [congruence|]. intros <-. congruence.
    + rewrite lookup_insert_ne by done. eauto.
Qed.

Lemma destroy_output_panels_wired e window :
  editor_wf e →
  editor_wf (panels.destroy_output_panels e window)
  ∧ evolves e (panels.destroy_output_panels e window).
Proof.
  unfold panels.destroy_output_panels.
  generalize [panels.Diagnostics; panels.References; panels.LanguageServers].
  intros names. revert e. induction names as [|field names IH]; intros e Hwf.
  - split; [done|apply evolves_refl].
  - cbn [fold_left].
    set (e1 := match window_api.find_output_panel e window (panels.panel_name field) with
               | Some id => _ | None => _ end).
    assert (H1 : editor_wf e1 ∧ evolves e e1).
    { subst e1. destruct (window_api.find_output_panel _ _ _) as [id|];
        [|split; [done|apply evolves_refl]].
      destruct (_ && _); [|split; [done|apply evolves_refl]].
      split; [by apply destroy_output_panel_wf|apply destroy_output_panel_evolves]. }
    destruct H1 as [Hwf1 Hev1]. destruct (IH e1 Hwf1) as [Hwf2 Hev2].
    split; [done|]. by eapply evolves_trans.
Qed.

Lemma open_window_wired e window :
  editor_wf e →
  editor_wf (window_api.open_window e window) ∧ evolves e (window_api.open_window e window).
Proof.
  intros [V P]. unfold window_api.open_window.
  destruct (windows e !! window) as [w|] eqn:Hw; [split; [done|apply evolves_refl]|].
  split; split; simpl; try done.
  - intros w' name id (w'' & Hw'' & Hp)%panel_of_unfold. simpl in Hw''.
    apply lookup_insert_Some in Hw'' as [[<- <-]|[Hne Hw'']]; [done|].
    apply (P w' name). apply panel_of_unfold. eauto.
  - intros w' name id _ _ (w'' & Hw'' & Hp)%panel_of_unfold.
    apply panel_of_unfold. simpl. rewrite lookup_insert_ne by congruence. eauto.
Qed.

Lemma close_views (vs : gmap Z View) (ps : gmap string Z) id :
  is_Some (map_fold (λ _ i vs, delete i vs) vs ps !! id) →
  is_Some (vs !! id) ∧ ∀ name, ps !! name ≠ Some id.
Proof.
  revert id.
  apply (map_fold_weak_ind
           (λ r m, ∀ id, is_Some (r !! id) → is_Some (vs !! id) ∧ ∀ name, m !! name ≠ Some id)).
  - intros id Hid. split; [done|]. intros name. by rewrite lookup_empty.
  - intros name i m r Hname IH id [v [Hne Hv]%lookup_delete_Some].
    destruct (IH id (mk_is_Some _ _ Hv)) as [Hvs Hm]. split; [done|].
    intros name'. rewrite lookup_insert. case_decide; [congruence|apply Hm].
Qed.

Lemma close_window_wired e window :
  editor_wf e →
  editor_wf (window_api.close_window e window) ∧ evolves e (window_api.close_window e window).
Proof.
  intros [V P]. unfold window_api.close_window.
  destruct (windows e !! window) as [w|] eqn:Hw; [|split; [done|apply evolves_refl]].
  split; split; simpl.
  - intros id [Hid _]%close_views. by apply V.
  - intros w' name id (w'' & Hw'' & Hp)%panel_of_unfold. simpl in Hw''.
    apply lookup_delete_Some in Hw'' as [Hne Hw''].
    apply (P w' name). apply panel_of_unfold. eauto.
  - lia.
  - by intros id _ [Hid _]%close_views.
  - intros w' name id _ [_ Hid]%close_views (w'' & Hw'' & Hp)%panel_of_unfold.
    apply panel_of_unfold. simpl.
    rewrite lookup_delete_ne; [eauto|]. intros <-.
    assert (w'' = w) as -> by congruence. by apply (Hid name).
Qed.

Lemma ensure_server_panel_wired e window :
  editor_wf e →
  editor_wf (panels.ensure_server_panel e window).1
  ∧ evolves e (panels.ensure_server_panel e window).1.
Proof.
  intros Hwf. unfold panels.ensure_server_panel, panels.ensure_panel.
  set (name := panels.panel_name panels.LanguageServers).
  destruct (window_api.truthy (window_api.find_output_panel e window name));
    [split; [done|apply evolves_refl]|].
  unfold panels.create_panel, panels.create_output_panel.
  pose proof (create_output_panel_wf e window name Hwf) as Hwf1.
  pose proof (create_output_panel_evolves e window name) as Hev1.
  destruct (window_api.create_output_panel e window name) as [e1 id1]. cbn [fst] in *.
  destruct (window_api.truthy (Some id1)); cbn [negb fst]; [|by split].
  pose proof (create_output_panel_wf e1 window name Hwf1) as Hwf2.
  pose proof (create_output_panel_evolves e1 window name) as Hev2.
  destruct (window_api.create_output_panel e1 window name) as [e2 id2]. cbn [fst] in *.
  split; [by apply on_view_wf|].
  eapply evolves_trans; [done|]. eapply evolves_trans; [done|]. apply on_view_evolves.
Qed.

Lemma ensure_server_panel_found e window e' panel :
  panels.ensure_server_panel e window = (e', Some panel) →
  window_api.truthy (Some panel) = true →
  panel_of e' window (panels.panel_name panels.LanguageServers) panel.
Proof.
  unfold panel_of, panels.ensure_server_panel, panels.ensure_panel.
  set (name := panels.panel_name panels.LanguageServers).
  destruct (window_api.truthy (window_api.find_output_panel e window name)) eqn:Hfound.
  { by intros [= <- ->] _. }
  unfold panels.create_panel, panels.create_output_panel, window_api.create_output_panel.
  unfold window_api.find_output_panel in *.
  destruct (windows e !! window) as [w|] eqn:Hw; simpl in *; [|done].
  destruct (window_panels w !! name) as [id|] eqn:Hid.
  { rewrite Hfound. done. }
  destruct (window_api.truthy (Some (next_view_id e))) eqn:Hnext; [|done].
  simpl. rewrite lookup_insert_eq. simpl. rewrite lookup_insert_eq.
  intros [= <- <-] _. simpl. rewrite lookup_insert_eq. simpl. by rewrite lookup_insert_eq.
Qed.

Lemma Forall_timer_wired e e' timers :
  evolves e e' → Forall (timer_wired e) timers → Forall (timer_wired e') timers.
Proof.
  intros Hev Htimers. eapply Forall_impl; [done|].
  intros t. by apply timer_wired_evolves.
Qed.

Lemma update_server_panel_wired st window prefix message :
  wired st → wired (panels.update_server_panel st window prefix message).
Proof.
  intros [Hwf Htimers]. unfold panels.update_server_panel.
  destruct (window_api.window_is_valid _ _); cbn [negb]; [|done].
  destruct (ensure_server_panel_wired (panels.editor st) window Hwf) as [Hwf' Hev].
  destruct (panels.ensure_server_panel _ _) as [e' [panel|]] eqn:Hpanel; cbn [fst] in *;
    [|split; [done|by eapply Forall_timer_wired]].
  destruct (window_api.truthy (Some panel)) eqn:Htrue; cbn [negb];
    [|split; [done|by eapply Forall_timer_wired]].
  pose proof (ensure_server_panel_found _ _ _ _ Hpanel Htrue) as Hfound.
  split; [done|]. cbn [panels.debounced panels.editor panels.timers].
  apply Forall_app. split; [by eapply Forall_timer_wired|].
  apply Forall_singleton. split; [|done].
  by eapply (wf_panels _ Hwf').
Qed.

Lemma timer_elapses_editor st i :
  let e' := panels.editor (state_of (panels.timer_elapses st i)) in
  e' = panels.editor st ∨ ∃ view f, e' = window_api.on_view (panels.editor st) view f.
Proof.
  unfold panels.timer_elapses. destruct (panels.timers st !! i) as [t|]; [|by left].
  destruct (panels.condition _ t); [|by left].
  unfold panels.flush. destruct (negb _); [by left|].
  cbn [panels.editor panels.to_be_processed panels.timers].
  destruct (views (panels.editor st) !! panels.timer_panel t) as [view|]; [|by left].
  right. destruct (panels.run _ _ _) as [r|x r]; by eexists _, _.
Qed.

Lemma with_editor_wired st e' :
  wired st → editor_wf e' → evolves (panels.editor st) e' →
  wired (panels.with_editor st e').
Proof.
  intros [Hwf Htimers] Hwf' Hev. split; [done|]. by eapply Forall_timer_wired.
Qed.

Lemma step_wired st a : wired st → wired (state_of (panels.step st a)).
Proof.
  intros Hst. pose proof Hst as [Hwf Htimers].
  destruct a as [window prefix message|i|window|view|view characters|window|window];
    cbn [panels.step state_of].
  - by apply update_server_panel_wired.
  - pose proof (timer_elapses_state st i) as Hstate.
    pose proof (timer_elapses_editor st i) as Heditor. cbn zeta in *.
    destruct (panels.timers st !! i) as [t|] eqn:Hi; [|by rewrite Hstate].
    destruct Hstate as [Ht _]. unfold wired. rewrite Ht.
    destruct Heditor as [->|(view & f & ->)].
    + split; [done|]. by apply Forall_delete.
    + split; [by apply on_view_wf|].
      apply (Forall_timer_wired (panels.editor st)); [apply on_view_evolves|].
      by apply Forall_delete.
  - destruct (destroy_output_panels_wired (panels.editor st) window Hwf).
    by apply with_editor_wired.
  - apply with_editor_wired; [done|by apply on_view_wf|apply on_view_evolves].
  - apply with_editor_wired; [done|by apply on_view_wf|apply on_view_evolves].
  - destruct (open_window_wired (panels.editor st) window Hwf).
    by apply with_editor_wired.
  - destruct (close_window_wired (panels.editor st) window Hwf).
    by apply with_editor_wired.
Qed.

Lemma exec_wired e trace : editor_wf e → wired (panels.exec (panels.loaded e) trace).
Proof.
  intros Hwf. induction trace as [|a trace IH] using rev_ind.
  - split; [done|]. constructor.
  - rewrite exec_snoc. by apply step_wired.
Qed.

(** A timer whose condition holds is about to write to the server panel of
    its window. *)
Lemma flush_goes_to_server_panel st i t :
  wired st →
  panels.timers st !! i = Some t →
  panels.condition st t = true →
  panel_of (panels.editor st) (panels.timer_window_id t)
    (panels.panel_name panels.LanguageServers) (panels.timer_panel t).
Proof.
  intros [_ Htimers] Hi Hc.
  destruct (proj1 (Forall_lookup _ _) Htimers i t Hi) as [_ Hpanel].
  apply Hpanel. unfold panels.condition in Hc.
  destruct (window_api.truthy _); [|done]. cbn [negb] in Hc.
  unfold window_api.view_is_valid in Hc.
  destruct (bool_decide_reflect (is_Some (views (panels.editor st) !! panels.timer_panel t)));
    done.
Qed.

End wiring.




(** ** Lifecycle of the pending table *)
Section lifecycle.

Implicit Types st : panels.State.

(** How one step changes the table: an enqueue, a flush, or not at all. *)
Lemma step_table st a :
  let table := panels.to_be_processed st in
  let table' := panels.to_be_processed (state_of (panels.step st a)) in
  table' = table
  ∨ (∃ window prefix message,
       a = panels.CallUpdateServerPanel window prefix message
       ∧ table' = <[window := default [] (table !! window) ++ [(prefix, message)]]> table)
  ∨ (∃ i t,
       a = panels.TimerElapses i
       ∧ panels.timers st !! i = Some t
       ∧ panels.condition st t = true
       ∧ table' = delete (panels.timer_window_id t) table).
Proof.
  intros table table'. subst table table'.
  destruct a as [window prefix message|i| | | | |]; try (by left).
  - cbn [panels.step state_of].
    destruct (update_server_panel_table st window prefix message)
      as [[-> _]|(e & panel & Hvalid & Hpanel & Htrue)]; [by left|].
    right. left. exists window, prefix, message. split; [done|].
    by rewrite (update_server_panel_enqueues _ _ _ _ _ _ Hvalid Hpanel Htrue).
  - cbn [panels.step]. pose proof (timer_elapses_state st i) as H. cbn zeta in H.
    destruct (panels.timers st !! i) as [t|] eqn:Hi; [|left; by rewrite H].
    destruct H as [_ ->]. destruct (panels.condition st t) eqn:Hc; [|by left].
    right. right. by exists i, t.
Qed.

Lemma two_queues_table :
  panels.to_be_processed two_queues
  = {[ 1 := [(str_of "srv", str_of "one")]; 2 := [(str_of "srv", str_of "two")] ]}.
Proof. by vm_compute. Qed.

Lemma two_queues_reachable : panels.reachable two_queues.
Proof. exists two_windows. by eexists. Qed.

Lemma no_teardown a : ¬ is_teardown a.
Proof.
  intros Hdown. specialize (Hdown two_queues two_queues_reachable).
  destruct (step_table two_queues a) as [H|[(window & prefix & message & _ & H)|
                                            (i & t & _ & _ & _ & H)]];
    cbn zeta in H; rewrite Hdown, two_queues_table in H.
  - apply (f_equal (λ m, m !! 1)) in H. by vm_compute in H.
  - apply (f_equal (λ m, m !! window)) in H.
    rewrite lookup_empty, lookup_insert_eq in H. done.
  - destruct (decide (panels.timer_window_id t = 1)) as [Heq|Hne].
    + apply (f_equal (λ m, m !! 2)) in H.
      rewrite lookup_empty, lookup_delete_ne in H by lia. by vm_compute in H.
    + apply (f_equal (λ m, m !! 1)) in H.
      rewrite lookup_empty, lookup_delete_ne in H by done. by vm_compute in H.
Qed.

End lifecycle.

(** C10, as stated, fails: no step of the process tears the pending table
    down, and an entry enqueued for a window that is closed before its timer
    elapses stays in the table with nothing left to flush it. *)
Lemma owned_lifecycle_fails : ¬ owned_lifecycle.
Proof.
  intros [_ Hreleased].
  assert (Hreach : panels.reachable closed_early).
  { exists one_window. by eexists. }
  specialize (Hreleased closed_early Hreach).
  assert (H : panels.to_be_processed closed_early !! 1 = None).
  { apply Hreleased; by vm_compute. }
  by vm_compute in H.
Qed.

(** C10, amended: the pending table is process-wide state without an
    owner.  It is empty when the class body has run; a step changes it only
    by an enqueue of [update_server_panel] or by a flush that pops one
    window's list; destroying the panels or closing the window leaves it as
    it is, and no step is a teardown. *)
Theorem pending_table_lifecycle :
  (∀ e, panels.to_be_processed (panels.loaded e) = ∅)
  ∧ (∀ (st : panels.State) (a : panels.action),
       let table := panels.to_be_processed st in
       let table' := panels.to_be_processed (state_of (panels.step st a)) in
       table' = table
       ∨ (∃ window prefix message,
            a = panels.CallUpdateServerPanel window prefix message
            ∧ table' = <[window := default [] (table !! window) ++ [(prefix, message)]]> table)
       ∨ (∃ i t,
            a = panels.TimerElapses i
            ∧ panels.timers st !! i = Some t
            ∧ panels.condition st t = true
            ∧ table' = delete (panels.timer_window_id t) table))
  ∧ (∀ (st : panels.State) (window : Z),
       panels.to_be_processed (state_of (panels.step st (panels.CallDestroyOutputPanels window)))
       = panels.to_be_processed st
       ∧ panels.to_be_processed (state_of (panels.step st (panels.CloseWindow window)))
         = panels.to_be_processed st)
  ∧ (∀ a, ¬ is_teardown a)
  ∧ panels.timers closed_early = []
  ∧ window_api.window_is_valid (panels.editor closed_early) 1 = false
  ∧ panels.to_be_processed closed_early !! 1 = Some [(str_of "srv", str_of "started")].
Proof.
  split; [done|]. split; [exact step_table|]. split; [done|].
  split; [exact no_teardown|]. by vm_compute.
Qed.

(** * Further properties of the code *)

(** ** The panel commands *)
Section panel_commands.

Implicit Types v : View.

Lemma clear_panel_result v : panels.clear_panel v = mkView true [].
Proof.
  unfold panels.clear_panel, sublime.erase, sublime.size. simpl.
  by rewrite drop_all.
Qed.

Lemma update_panel_result v characters :
  panels.update_panel v characters = mkView true (default [] characters).
Proof.
  unfold panels.update_panel, sublime.replace, sublime.size. simpl.
  by rewrite drop_all, app_nil_r.
Qed.

End panel_commands.

(** X1: [LspClearPanelCommand.run] and [LspUpdatePanelCommand.run] work on
    a panel whatever its read-only flag and text were: the first leaves it
    empty, the second leaves exactly [characters] (nothing for [None]), and
    both leave it read-only.  So the last command wins, and updating with
    [None] or with the empty string is clearing. *)
Theorem panel_commands_overwrite (v : View) (characters : option str) :
  panels.clear_panel v = mkView true []
  ∧ panels.update_panel v characters = mkView true (default [] characters)
  ∧ (∀ first, panels.update_panel (panels.update_panel v first) characters
              = panels.update_panel v characters)
  ∧ panels.clear_panel (panels.update_panel v characters) = panels.clear_panel v
  ∧ panels.update_panel (panels.clear_panel v) characters = panels.update_panel v characters
  ∧ panels.update_panel v None = panels.clear_panel v
  ∧ panels.update_panel v (Some []) = panels.clear_panel v.
Proof.
  rewrite !clear_panel_result, !update_panel_result.
  repeat split; try done.
  intros first. by rewrite !update_panel_result.
Qed.

(** X2: a flush cannot be repeated.  After a completed
    [LspUpdateServerPanelCommand.run] for [window_id], running the command
    again for the same id, on the same panel or on any other view, raises
    [KeyError] and changes neither the table nor the view. *)
Theorem run_twice_raises (table : panels.pending) (v other : View) (window_id : Z)
    (queue : list (str * str)) :
  table !! window_id = Some queue →
  queue ≠ [] →
  ∃ table' v',
    panels.run table v window_id = Ok (table', v')
    ∧ panels.run table' v' window_id = Raise (KeyError window_id) (table', v')
    ∧ panels.run table' other window_id = Raise (KeyError window_id) (table', other).
Proof.
  intros Hq Hne. eexists _, _. split; [by apply run_flushes|].
  split; apply run_absent, lookup_delete_eq.
Qed.

Lemma run_twice_raises_witness :
  ∃ table' v',
    panels.run {[ 7 := [(str_of "srv", str_of "started")] ]} (mkView true []) 7
    = Ok (table', v')
    ∧ panels.run table' v' 7 = Raise (KeyError 7) (table', v').
Proof.
  destruct (run_twice_raises {[ 7 := [(str_of "srv", str_of "started")] ]}
              (mkView true []) (mkView true []) 7 [(str_of "srv", str_of "started")])
    as (table' & v' & Hfirst & Hsecond & _).
  - vm_compute. reflexivity.
  - discriminate.
  - by exists table', v'.
Defined.

(** ** Lines written by a flush *)
Section written_lines.

Implicit Types t : str.

Lemma replace_crlf_count_lf_both t :
  count_lf (Str.replace t [CR; LF] [LF]) = count_lf t
  ∧ ∀ c, count_lf (Str.replace (c :: t) [CR; LF] [LF]) = count_lf (c :: t).
Proof.
  induction t as [|c' t [IH1 IH2]].
  - split; [done|]. intros c. rewrite replace_crlf_other; [done|].
    cbn [Str.startswith]. by destruct (Ascii.eqb CR c).
  - split; [apply IH2|]. intros c.
    destruct (Str.startswith [CR; LF] (c :: c' :: t)) eqn:Hs.
    + cbn [Str.startswith] in Hs.
      destruct (Ascii.eqb_spec CR c) as [Hc|]; [subst c|done].
      destruct (Ascii.eqb_spec LF c') as [Hc'|]; [subst c'|done].
      rewrite replace_crlf_crlf. cbn [count_lf].
      change (Ascii.eqb CR LF) with false. change (Ascii.eqb LF LF) with true.
      by rewrite IH1.
    + rewrite replace_crlf_other by done.
      cbn [count_lf]. by rewrite IH2.
Qed.

Lemma replace_crlf_count_lf t : count_lf (Str.replace t [CR; LF] [LF]) = count_lf t.
Proof. apply replace_crlf_count_lf_both. Qed.

Lemma entry_text_count_lf (entry : str * str) :
  count_lf (entry_text entry) = (count_lf entry.1 + count_lf entry.2 + 1)%nat.
Proof.
  unfold entry_text, Str.format_line.
  rewrite !count_lf_app, replace_crlf_count_lf. cbn. lia.
Qed.

Lemma entries_count_lf (queue : list (str * str)) :
  count_lf (concat (map entry_text queue)) = entry_lines queue.
Proof.
  unfold entry_lines. induction queue as [|entry queue IH]; [done|].
  cbn [map concat sum_list]. by rewrite count_lf_app, entry_text_count_lf, IH.
Qed.

End written_lines.

(** X3: replacing ["\r\n"] by ["\n"] keeps the number of newlines, so an
    entry adds one line plus one for each newline of its prefix and its
    message.  After a completed flush the panel holds the lines it had plus
    those of the queue, capped at [SERVER_PANEL_MAX_LINES]. *)
Theorem run_line_count (table : panels.pending) (v : View) (window_id : Z)
    (queue : list (str * str)) :
  table !! window_id = Some queue →
  queue ≠ [] →
  (∀ message, count_lf (Str.replace message [CR; LF] [LF]) = count_lf message)
  ∧ ∃ v',
      panels.run table v window_id = Ok (delete window_id table, v')
      ∧ Z.of_nat (count_lf (view_text v'))
        = Z.min (Z.of_nat (count_lf (view_text v) + entry_lines queue))
            panels.SERVER_PANEL_MAX_LINES.
Proof.
  intros Hq Hne. split; [exact replace_crlf_count_lf|].
  eexists. split; [by apply run_flushes|].
  cbn [view_text]. set (text := view_text v ++ _).
  pose proof (excess_le text) as Hle.
  rewrite drop_lines_count by done.
  assert (Htext : count_lf text = (count_lf (view_text v) + entry_lines queue)%nat).
  { unfold text. by rewrite count_lf_app, entries_count_lf. }
  rewrite <-Htext. unfold excess, panels.SERVER_PANEL_MAX_LINES in *. lia.
Qed.

Lemma run_line_count_witness :
  ∃ v', panels.run {[ 7 := [(str_of "srv", [CR; LF; "a"%char; CR; LF])] ]}
          (mkView true [LF]) 7
        = Ok (delete 7 {[ 7 := [(str_of "srv", [CR; LF; "a"%char; CR; LF])] ]}, v')
        ∧ Z.of_nat (count_lf (view_text v')) = 4.
Proof.
  destruct (run_line_count {[ 7 := [(str_of "srv", [CR; LF; "a"%char; CR; LF])] ]}
              (mkView true [LF]) 7 [(str_of "srv", [CR; LF; "a"%char; CR; LF])])
    as (_ & v' & Hrun & Hcount).
  - vm_compute. reflexivity.
  - discriminate.
  - exists v'. split; [exact Hrun|]. rewrite Hcount. reflexivity.
Defined.

(** ** File names to URIs *)
Section wsl_paths.

Implicit Types t part : str.

Lemma split_not_nil sep t : url.split sep t ≠ [].
Proof.
  destruct t as [|c t]; [done|]. cbn [url.split].
  destruct (Ascii.eqb c sep); [done|]. by destruct (url.split sep t).
Qed.

Lemma split_length sep t :
  length (url.split sep t) = S (length (filter (λ c, c = sep) t)).
Proof.
  induction t as [|c t IH]; [done|]. cbn [url.split].
  destruct (Ascii.eqb_spec c sep) as [->|Hne].
  - rewrite filter_cons_True by done. simpl. by rewrite IH.
  - rewrite filter_cons_False by done. rewrite <-IH.
    pose proof (split_not_nil sep t). by destruct (url.split sep t).
Qed.

(** Up to its first separator a text is the first part. *)
Lemma split_app sep part t :
  sep ∉ part → url.split sep (part ++ sep :: t) = part :: url.split sep t.
Proof.
  induction part as [|c part IH]; intros Hpart.
  - cbn [app url.split]. by rewrite Ascii.eqb_refl.
  - apply not_elem_of_cons in Hpart as [Hne Hpart]. cbn [app url.split].
    destruct (Ascii.eqb_spec c sep) as [->|_]; [done|]. by rewrite IH.
Qed.

Lemma split_parts sep t : Forall (λ part, sep ∉ part) (url.split sep t).
Proof.
  induction t as [|c t IH]; cbn [url.split].
  - constructor; [apply not_elem_of_nil|constructor].
  - destruct (Ascii.eqb_spec c sep) as [->|Hne].
    + constructor; [apply not_elem_of_nil|done].
    + pose proof (split_not_nil sep t). destruct (url.split sep t) as [|part parts]; [done|].
      apply Forall_cons in IH as [Hpart Hparts]. constructor; [|done].
      apply not_elem_of_cons. split; [congruence|done].
Qed.

Lemma join_cons sep part parts :
  parts ≠ [] → url.join sep (part :: parts) = part ++ sep ++ url.join sep parts.
Proof. by destruct parts. Qed.

(** Splitting at backslashes and joining with slashes turns each backslash
    into a slash. *)
Lemma join_split t :
  url.join [url.SLASH] (url.split url.BACKSLASH t) = map to_slash t.
Proof.
  induction t as [|c t IH]; [done|]. cbn [url.split map]. unfold to_slash at 1.
  pose proof (split_not_nil url.BACKSLASH t) as Hne.
  destruct (Ascii.eqb c url.BACKSLASH).
  - rewrite join_cons by done. by rewrite IH.
  - destruct (url.split url.BACKSLASH t) as [|part parts]; [done|].
    rewrite <-IH. destruct parts as [|part' parts]; [done|].
    rewrite (join_cons _ (c :: part)) by done.
    by rewrite (join_cons _ part) by done.
Qed.

Lemma join_no_backslash parts :
  Forall (λ part, url.BACKSLASH ∉ part) parts →
  url.BACKSLASH ∉ url.join [url.SLASH] parts.
Proof.
  induction parts as [|part parts IH]; intros Hparts; [apply not_elem_of_nil|].
  apply Forall_cons in Hparts as [Hpart Hparts].
  destruct parts as [|part' parts]; [done|].
  rewrite join_cons by done. rewrite !not_elem_of_app. split; [done|].
  split; [|by apply IH].
  apply not_elem_of_cons. split; [done|apply not_elem_of_nil].
Qed.

End wsl_paths.

(** X4: [filename_to_uri] of [plugin/core/url.py] drops the first four
    backslash-separated components of the path.  A path with fewer than four
    backslashes, such as a drive path with up to three, therefore always
    gives the URI of the root ["/"], whatever the file. *)
Theorem filename_to_uri_short_path (pathname2url : str → str)
    (urljoin : str → str → str) (path : str) :
  (length (filter (λ c, c = url.BACKSLASH) path) < 4)%nat →
  url.wsl_path path = str_of "/"
  ∧ url.filename_to_uri pathname2url urljoin path
    = urljoin (str_of "file:") (pathname2url (str_of "/")).
Proof.
  intros Hshort.
  assert (Hroot : url.wsl_path path = str_of "/").
  { unfold url.wsl_path. rewrite drop_ge; [done|].
    rewrite split_length. lia. }
  split; [done|]. unfold url.filename_to_uri. by rewrite Hroot.
Qed.

Lemma filename_to_uri_short_path_witness :
  url.wsl_path (str_of "C:\Users\me\notes.txt") = str_of "/".
Proof.
  apply (filename_to_uri_short_path (λ t, t) (λ a b, a ++ b)
           (str_of "C:\Users\me\notes.txt")).
  vm_compute. lia.
Defined.

(** X5: for a path whose first four components are [a], [b], [c] and [d],
    [filename_to_uri] passes on what follows them with every backslash
    turned into a slash and a slash in front; in no case does the path
    handed to [pathname2url] hold a backslash. *)
Theorem filename_to_uri_strips_prefix (pathname2url : str → str)
    (urljoin : str → str → str) (a b c d rest : str) :
  url.BACKSLASH ∉ a → url.BACKSLASH ∉ b → url.BACKSLASH ∉ c → url.BACKSLASH ∉ d →
  let path := a ++ url.BACKSLASH :: b ++ url.BACKSLASH :: c ++ url.BACKSLASH
              :: d ++ url.BACKSLASH :: rest in
  url.wsl_path path = url.SLASH :: map to_slash rest
  ∧ url.filename_to_uri pathname2url urljoin path
    = urljoin (str_of "file:") (pathname2url (url.SLASH :: map to_slash rest))
  ∧ (∀ any, url.BACKSLASH ∉ url.wsl_path any).
Proof.
  intros Ha Hb Hc Hd path.
  assert (Hpath : url.wsl_path path = url.SLASH :: map to_slash rest).
  { unfold url.wsl_path, path. rewrite !split_app by done.
    cbn [skipn app]. by rewrite drop_0, join_split. }
  split; [done|]. split; [unfold url.filename_to_uri; by rewrite Hpath|].
  intros any. unfold url.wsl_path. cbn [app].
  apply not_elem_of_cons. split; [done|].
  apply join_no_backslash, Forall_drop, split_parts.
Qed.

Lemma filename_to_uri_strips_prefix_witness :
  url.wsl_path (str_of "\\wsl$\Ubuntu\home\me\a.py") = str_of "/home/me/a.py".
Proof.
  destruct (filename_to_uri_strips_prefix (λ t, t) (λ a b, a ++ b)
              [] [] (str_of "wsl$") (str_of "Ubuntu") (str_of "home\me\a.py"))
    as [Hpath _].
  - apply not_elem_of_nil.
  - apply not_elem_of_nil.
  - apply (bool_decide_unpack _). vm_compute. reflexivity.
  - apply (bool_decide_unpack _). vm_compute. reflexivity.
  - exact Hpath.
Defined.

(** ** Making and destroying panels *)
Section panel_lifecycle.

Implicit Types e : Editor.

Lemma window_is_valid_lookup e window :
  window_api.window_is_valid e window = true ↔ is_Some (windows e !! window).
Proof. unfold window_api.window_is_valid. apply bool_decide_eq_true. Qed.

(** The four ways through [ensure_panel] for the server panel. *)
Lemma ensure_server_panel_cases e window :
  let name := panels.panel_name panels.LanguageServers in
  let found := window_api.find_output_panel e window name in
  (window_api.truthy found = true ∧ panels.ensure_server_panel e window = (e, found))
  ∨ (windows e !! window = None ∧ panels.ensure_server_panel e window = (e, None))
  ∨ (∃ id, found = Some id ∧ window_api.truthy found = false
           ∧ panels.ensure_server_panel e window = (e, None))
  ∨ (∃ w, windows e !! window = Some w ∧ window_panels w !! name = None
          ∧ panels.ensure_server_panel e window
            = if window_api.truthy (Some (next_view_id e))
              then (window_api.on_view (with_new_panel e window w name) (next_view_id e)
                      (λ v, sublime.set_read_only v true),
                    Some (next_view_id e))
              else (with_new_panel e window w name, None)).
Proof.
  intros name found. subst found.
  unfold panels.ensure_server_panel, panels.ensure_panel. fold name.
  destruct (window_api.truthy (window_api.find_output_panel e window name)) eqn:Hfound;
    [by left|right].
  unfold panels.create_panel, panels.create_output_panel, window_api.create_output_panel.
  unfold window_api.find_output_panel in *.
  destruct (windows e !! window) as [w|] eqn:Hw; cbn [mbind option_bind] in *; [|by left].
  right. destruct (window_panels w !! name) as [id|] eqn:Hid.
  - left. exists id. rewrite Hfound. done.
  - right. exists w. split; [done|]. split; [done|].
    destruct (window_api.truthy (Some (next_view_id e))); cbn [negb]; [|done].
    cbn [windows]. rewrite lookup_insert_eq. cbn [window_panels].
    by rewrite lookup_insert_eq.
Qed.

Lemma ensure_server_panel_again e window e' panel :
  panels.ensure_server_panel e window = (e', Some panel) →
  window_api.truthy (Some panel) = true →
  panels.ensure_server_panel e' window = (e', Some panel).
Proof.
  intros Hpanel Htrue.
  pose proof (ensure_server_panel_found _ _ _ _ Hpanel Htrue) as Hfound.
  unfold panel_of in Hfound.
  unfold panels.ensure_server_panel, panels.ensure_panel. by rewrite Hfound, Htrue.
Qed.

Lemma ensure_server_panel_windows e window window' :
  window_api.window_is_valid (panels.ensure_server_panel e window).1 window'
  = window_api.window_is_valid e window'.
Proof.
  destruct (ensure_server_panel_cases e window)
    as [[_ ->]|[[_ ->]|[(id & _ & _ & ->)|(w & Hw & _ & ->)]]]; try done.
  assert (Hsame : window_api.window_is_valid (with_new_panel e window w
                    (panels.panel_name panels.LanguageServers)) window'
                  = window_api.window_is_valid e window').
  { unfold window_api.window_is_valid. apply bool_decide_ext. cbn [windows with_new_panel].
    rewrite lookup_insert. case_decide; [subst|done].
    rewrite Hw. split; by eexists. }
  by destruct (window_api.truthy _).
Qed.

(** What [destroy_output_panel] leaves of the panels of a window. *)
Lemma destroy_output_panel_find e window name window' name' :
  window_api.find_output_panel (window_api.destroy_output_panel e window name) window' name'
  = if decide (window' = window ∧ name' = name) then None
    else window_api.find_output_panel e window' name'.
Proof.
  unfold window_api.destroy_output_panel, window_api.find_output_panel.
  destruct (windows e !! window) as [w|] eqn:Hw.
  - destruct (window_panels w !! name) as [id|] eqn:Hid.
    + cbn [windows]. rewrite lookup_insert.
      destruct (decide (window = window')) as [<-|Hne].
      * rewrite Hw. cbn. rewrite lookup_delete.
        destruct (decide (name = name')) as [<-|Hne'].
        -- by rewrite decide_True.
        -- rewrite decide_False; [done|]. by intros [_ ->].
      * rewrite decide_False; [done|]. by intros [-> _].
    + case_decide as H; [|done]. destruct H as [-> ->]. by rewrite Hw.
  - case_decide as H; [|done]. destruct H as [-> ->]. by rewrite Hw.
Qed.

Lemma destroy_output_panel_views e window name id v :
  views (window_api.destroy_output_panel e window name) !! id = Some v →
  views e !! id = Some v.
Proof.
  unfold window_api.destroy_output_panel.
  destruct (windows e !! window) as [w|]; [|done].
  destruct (window_panels w !! name) as [id'|]; [|done].
  cbn [views]. by intros [_ ?]%lookup_delete_Some.
Qed.

Lemma destroy_output_panel_closes e window name id :
  window_api.find_output_panel e window name = Some id →
  views (window_api.destroy_output_panel e window name) !! id = None.
Proof.
  unfold window_api.destroy_output_panel, window_api.find_output_panel.
  destruct (windows e !! window) as [w|]; [|done]. cbn.
  intros ->. cbn [views]. apply lookup_delete_eq.
Qed.

Lemma destroy_if_open_find window e field window' name' :
  window' ≠ window →
  window_api.find_output_panel (destroy_if_open window e field) window' name'
  = window_api.find_output_panel e window' name'.
Proof.
  intros Hne. unfold destroy_if_open.
  destruct (window_api.find_output_panel e window _) as [id|]; [|done].
  destruct (_ && _); [|done].
  rewrite destroy_output_panel_find. rewrite decide_False; [done|]. by intros [? _].
Qed.

Lemma destroy_if_open_views window e field id v :
  views (destroy_if_open window e field) !! id = Some v → views e !! id = Some v.
Proof.
  unfold destroy_if_open.
  destruct (window_api.find_output_panel e window _) as [id'|]; [|done].
  destruct (_ && _); [|done]. apply destroy_output_panel_views.
Qed.

Lemma view_is_valid_false e id :
  window_api.view_is_valid e id = false ↔ views e !! id = None.
Proof.
  unfold window_api.view_is_valid. rewrite bool_decide_eq_false.
  rewrite <-eq_None_not_Some. done.
Qed.

(** A round of the loop closes the panel of its own name. *)
Lemma destroy_if_open_closes window e field :
  no_open_panel (destroy_if_open window e field) window field.
Proof.
  unfold no_open_panel, destroy_if_open.
  destruct (window_api.find_output_panel e window (panels.panel_name field))
    as [id|] eqn:Hfind; [|by rewrite Hfind].
  destruct (window_api.truthy (Some id)) eqn:Htrue; cbn [andb].
  - destruct (window_api.view_is_valid e id) eqn:Hvalid.
    + rewrite destroy_output_panel_find. by rewrite decide_True.
    + rewrite Hfind. by right.
  - rewrite Hfind. by left.
Qed.

(** A later round does not reopen it. *)
Lemma destroy_if_open_keeps window e field field' :
  no_open_panel e window field →
  no_open_panel (destroy_if_open window e field') window field.
Proof.
  unfold no_open_panel. intros Hclosed.
  destruct (window_api.find_output_panel (destroy_if_open window e field') window
              (panels.panel_name field)) as [id|] eqn:Hfind; [|done].
  assert (Hbefore : window_api.find_output_panel e window (panels.panel_name field) = Some id).
  { revert Hfind. unfold destroy_if_open.
    destruct (window_api.find_output_panel e window (panels.panel_name field')); [|done].
    destruct (_ && _); [|done].
    rewrite destroy_output_panel_find. by case_decide. }
  rewrite Hbefore in Hclosed. destruct Hclosed as [Hfalse|Hinvalid]; [by left|right].
  apply view_is_valid_false. apply view_is_valid_false in Hinvalid.
  destruct (views (destroy_if_open window e field') !! id) as [v|] eqn:Hv; [|done].
  apply destroy_if_open_views in Hv. congruence.
Qed.

Lemma destroy_output_panels_rounds e window :
  panels.destroy_output_panels e window
  = destroy_if_open window
      (destroy_if_open window (destroy_if_open window e panels.Diagnostics)
         panels.References)
      panels.LanguageServers.
Proof. reflexivity. Qed.

End panel_lifecycle.

(** X6: [ensure_server_panel] on a window that is gone returns [None] and
    changes nothing.  When it returns a panel, that panel is then the
    window's "language servers" panel, the same windows are open as before,
    and a second call returns the same panel and changes nothing.  A panel
    it has to create, for an open window without one, is a new view that is
    empty and read-only; no other view changes. *)
Theorem ensure_server_panel_finds_or_creates (e : Editor) (window : Z) :
  (window_api.window_is_valid e window = false →
   panels.ensure_server_panel e window = (e, None))
  ∧ (∀ e' panel,
       panels.ensure_server_panel e window = (e', Some panel) →
       window_api.truthy (Some panel) = true →
       window_api.find_output_panel e' window (panels.panel_name panels.LanguageServers)
       = Some panel
       ∧ panels.ensure_server_panel e' window = (e', Some panel)
       ∧ ∀ window', window_api.window_is_valid e' window'
                    = window_api.window_is_valid e window')
  ∧ (window_api.window_is_valid e window = true →
     window_api.find_output_panel e window (panels.panel_name panels.LanguageServers) = None →
     window_api.truthy (Some (next_view_id e)) = true →
     ∃ e', panels.ensure_server_panel e window = (e', Some (next_view_id e))
           ∧ views e' !! next_view_id e = Some (mkView true [])
           ∧ ∀ id, id ≠ next_view_id e → views e' !! id = views e !! id).
Proof.
  split; [|split].
  - intros Hinvalid.
    assert (Hw : windows e !! window = None).
    { unfold window_api.window_is_valid in Hinvalid.
      apply bool_decide_eq_false in Hinvalid. by apply eq_None_not_Some. }
    destruct (ensure_server_panel_cases e window)
      as [[Htrue _]|[[_ ->]|[(id & _ & _ & ->)|(w & Hw' & _)]]]; try done; [|congruence].
    unfold window_api.find_output_panel in Htrue. by rewrite Hw in Htrue.
  - intros e' panel Hpanel Htrue. split; [by eapply ensure_server_panel_found|].
    split; [by apply (ensure_server_panel_again e)|].
    intros window'. pose proof (ensure_server_panel_windows e window window') as H.
    by rewrite Hpanel in H.
  - intros Hvalid Hnone Hnext.
    destruct (ensure_server_panel_cases e window)
      as [[Htrue _]|[[Hw _]|[(id & Hid & _)|(w & Hw & Hname & ->)]]].
    + by rewrite Hnone in Htrue.
    + apply window_is_valid_lookup in Hvalid as [w Hw']. congruence.
    + congruence.
    + rewrite Hnext. eexists. split; [done|].
      cbn [window_api.on_view views with_new_panel]. split.
      * by rewrite lookup_alter_eq, lookup_insert_eq.
      * intros id Hne. by rewrite lookup_alter_ne, lookup_insert_ne.
Qed.

Lemma ensure_server_panel_finds_or_creates_witness :
  ∃ e', panels.ensure_server_panel one_window 1 = (e', Some 1)
        ∧ views e' !! 1 = Some (mkView true []).
Proof.
  destruct (ensure_server_panel_finds_or_creates one_window 1) as (_ & _ & Hnew).
  destruct Hnew as (e' & Hpanel & Hview & _).
  - vm_compute. reflexivity.
  - vm_compute. reflexivity.
  - reflexivity.
  - exists e'. split; [exact Hpanel|exact Hview].
Defined.

(** X7: after [destroy_output_panels(window)] no open view is left as the
    diagnostics, references or language-servers panel of the window: each
    name has no panel, or only a handle that tests false or a closed view,
    which the function skips.  The panels of other windows stay registered,
    and no view is opened or changed. *)
Theorem destroy_output_panels_closes_all (e : Editor) (window : Z) :
  let e' := panels.destroy_output_panels e window in
  (∀ field, no_open_panel e' window field)
  ∧ (∀ window' name, window' ≠ window →
       window_api.find_output_panel e' window' name
       = window_api.find_output_panel e window' name)
  ∧ (∀ id v, views e' !! id = Some v → views e !! id = Some v)
  ∧ next_view_id e' = next_view_id e.
Proof.
  intros e'. subst e'. rewrite destroy_output_panels_rounds.
  split; [|split; [|split]].
  - intros []; repeat first [apply destroy_if_open_closes | apply destroy_if_open_keeps].
  - intros window' name Hne. by rewrite !destroy_if_open_find.
  - intros id v Hv. by do 3 apply destroy_if_open_views in Hv.
  - assert (Hnext : ∀ e field, next_view_id (destroy_if_open window e field) = next_view_id e).
    { intros e0 field. unfold destroy_if_open, window_api.destroy_output_panel.
      destruct (window_api.find_output_panel e0 window _); [|done].
      destruct (_ && _); [|done].
      destruct (windows e0 !! window) as [w|]; [|done].
      by destruct (window_panels w !! _). }
    by rewrite !Hnext.
Qed.

(** ** Panels stay read-only *)
Section read_only.

Implicit Types e : Editor.
Implicit Types st : panels.State.

Lemma on_view_read_only e view f :
  all_read_only e →
  (∀ v, view_read_only (f v) = true) →
  all_read_only (window_api.on_view e view f).
Proof.
  intros He Hf id v. cbn [window_api.on_view views]. rewrite lookup_alter.
  case_decide as Hid; [subst id|apply He].
  destruct (views e !! view); [|done]. intros [= <-]. apply Hf.
Qed.

Lemma truthy_positive (id : Z) : 0 < id → window_api.truthy (Some id) = true.
Proof. intros Hid. unfold window_api.truthy. by destruct (Z.eqb_spec id 0); [lia|]. Qed.

Lemma ensure_server_panel_read_only e window :
  all_read_only e → 0 < next_view_id e →
  all_read_only (panels.ensure_server_panel e window).1
  ∧ 0 < next_view_id (panels.ensure_server_panel e window).1.
Proof.
  intros He Hnext.
  destruct (ensure_server_panel_cases e window)
    as [[_ ->]|[[_ ->]|[(id & _ & _ & ->)|(w & Hw & _ & ->)]]]; try done.
  rewrite truthy_positive by done. cbn [fst]. split; [|cbn; lia].
  intros id v. cbn [window_api.on_view views with_new_panel].
  rewrite lookup_alter. case_decide as Hid; [subst id|].
  - rewrite lookup_insert_eq. by intros [= <-].
  - rewrite lookup_insert_ne by done. apply He.
Qed.

Lemma destroy_output_panels_views e window id v :
  views (panels.destroy_output_panels e window) !! id = Some v → views e !! id = Some v.
Proof.
  rewrite destroy_output_panels_rounds. intros Hv.
  by do 3 apply destroy_if_open_views in Hv.
Qed.

Lemma destroy_if_open_next window e field :
  next_view_id (destroy_if_open window e field) = next_view_id e.
Proof.
  unfold destroy_if_open, window_api.destroy_output_panel.
  destruct (window_api.find_output_panel e window _); [|done].
  destruct (_ && _); [|done].
  destruct (windows e !! window) as [w|]; [|done].
  by destruct (window_panels w !! _).
Qed.

Lemma destroy_output_panels_next e window :
  next_view_id (panels.destroy_output_panels e window) = next_view_id e.
Proof. rewrite destroy_output_panels_rounds. by rewrite !destroy_if_open_next. Qed.

Lemma close_views_lookup (vs : gmap Z View) (ps : gmap string Z) id v :
  map_fold (λ _ i vs, delete i vs) vs ps !! id = Some v → vs !! id = Some v.
Proof.
  revert id v.
  apply (map_fold_weak_ind (λ r (m : gmap string Z), ∀ id v, r !! id = Some v → vs !! id = Some v)).
  - done.
  - intros name i m r _ IH id v [_ Hv]%lookup_delete_Some. by apply IH.
Qed.

Lemma close_window_read_only e window :
  all_read_only e → all_read_only (window_api.close_window e window).
Proof.
  intros He id v. unfold window_api.close_window.
  destruct (windows e !! window) as [w|]; [|apply He].
  cbn [views]. intros Hv%close_views_lookup. by eapply He.
Qed.

Lemma close_window_next e window :
  next_view_id (window_api.close_window e window) = next_view_id e.
Proof. unfold window_api.close_window. by destruct (windows e !! window). Qed.

Lemma open_window_views e window :
  views (window_api.open_window e window) = views e
  ∧ next_view_id (window_api.open_window e window) = next_view_id e.
Proof. unfold window_api.open_window. by destruct (windows e !! window). Qed.

(** A timer whose condition holds, seen from the queue it flushes. *)
Lemma timer_elapses_flush st i t view queue :
  panels.timers st !! i = Some t →
  panels.condition st t = true →
  views (panels.editor st) !! panels.timer_panel t = Some view →
  panels.to_be_processed st !! panels.timer_window_id t = Some queue →
  queue ≠ [] →
  panels.timer_elapses st i
  = Ok (panels.mkState
          (window_api.on_view (panels.editor st) (panels.timer_panel t)
             (λ _, mkView true (flushed_text (view_text view) queue)))
          (delete (panels.timer_window_id t) (panels.to_be_processed st))
          (delete i (panels.timers st))).
Proof.
  intros Hi Hc Hview Hq Hne. unfold panels.timer_elapses. rewrite Hi, condition_timers, Hc.
  unfold panels.flush. cbn [panels.editor panels.to_be_processed panels.timers].
  unfold panels.condition in Hc. destruct (window_api.truthy _); [|done]. cbn [negb].
  rewrite Hview. by rewrite (run_flushes _ _ _ _ Hq Hne).
Qed.

Lemma step_tidy st a : tidy st → tidy (state_of (panels.step st a)).
Proof.
  intros (He & Hnext & Hq).
  split; [|split; [|by apply step_queues_nonempty]].
  - destruct a as [window prefix message|i|window|view|view characters|window|window];
      cbn [panels.step state_of panels.with_editor panels.editor].
    + unfold panels.update_server_panel.
      destruct (window_api.window_is_valid _ _); cbn [negb]; [|done].
      destruct (ensure_server_panel_read_only (panels.editor st) window He Hnext) as [He' _].
      destruct (panels.ensure_server_panel _ _) as [e' [panel|]]; cbn [fst] in He'; [|done].
      by destruct (window_api.truthy _).
    + destruct (panels.timers st !! i) as [t|] eqn:Hi;
        [|unfold panels.timer_elapses; by rewrite Hi].
      destruct (panels.condition st t) eqn:Hc;
        [|unfold panels.timer_elapses; by rewrite Hi, condition_timers, Hc].
      destruct (timer_elapses_flushes st i t Hq Hi Hc) as (view & queue & _ & _ & _ & ->).
      cbn [state_of panels.editor]. by apply on_view_read_only.
    + intros id v Hv%destroy_output_panels_views. by eapply He.
    + apply on_view_read_only; [done|]. intros v. by rewrite clear_panel_result.
    + apply on_view_read_only; [done|]. intros v. by rewrite update_panel_result.
    + intros id v. destruct (open_window_views (panels.editor st) window) as [-> _]. apply He.
    + by apply close_window_read_only.
  - destruct a as [window prefix message|i|window|view|view characters|window|window];
      cbn [panels.step state_of panels.with_editor panels.editor]; try done.
    + unfold panels.update_server_panel.
      destruct (window_api.window_is_valid _ _); cbn [negb]; [|done].
      destruct (ensure_server_panel_read_only (panels.editor st) window He Hnext) as [_ Hn'].
      destruct (panels.ensure_server_panel _ _) as [e' [panel|]]; cbn [fst] in Hn'; [|done].
      by destruct (window_api.truthy _).
    + destruct (timer_elapses_editor st i) as [->|(view & f & ->)]; done.
    + by rewrite destroy_output_panels_next.
    + by destruct (open_window_views (panels.editor st) window) as [_ ->].
    + by rewrite close_window_next.
Qed.

Lemma exec_tidy e trace :
  all_read_only e → 0 < next_view_id e → tidy (panels.exec (panels.loaded e) trace).
Proof.
  intros He Hnext. induction trace as [|a trace IH] using rev_ind.
  - split; [done|]. split; [done|]. intros w queue. cbn. by rewrite lookup_empty.
  - rewrite exec_snoc. by apply step_tidy.
Qed.

End read_only.

(** X8: "all our panels are read-only".  In a process that starts with
    every view read-only (and view ids counted from 1), every view is
    read-only after every step: a panel is made writable only inside a
    command, and each command that completes sets it back.  A command that
    raises does not: [run] on an empty list leaves its panel writable, with
    the text as it was. *)
Theorem panels_stay_read_only (e : Editor) (trace : list panels.action) :
  all_read_only e →
  0 < next_view_id e →
  all_read_only (panels.editor (panels.exec (panels.loaded e) trace))
  ∧ ∀ (table : panels.pending) (v : View) (window_id : Z),
      table !! window_id = Some [] →
      ∃ x table',
        panels.run table v window_id = Raise x (table', mkView false (view_text v)).
Proof.
  intros He Hnext. split; [by apply exec_tidy|].
  intros table v window_id Hq. rewrite (run_empty _ _ _ Hq). by eexists _, _.
Qed.

Lemma panels_stay_read_only_witness :
  all_read_only
    (panels.editor
       (panels.exec (panels.loaded one_window)
          [panels.CallUpdateServerPanel 1 (str_of "srv") (str_of "started");
           panels.TimerElapses 0])).
Proof.
  apply (panels_stay_read_only one_window).
  - intros id v Hv. vm_compute in Hv. discriminate Hv.
  - reflexivity.
Defined.

Lemma one_window_wf : editor_wf one_window.
Proof.
  split.
  - intros id [v Hv]. by vm_compute in Hv.
  - intros w name id (w' & Hw & Hp)%panel_of_unfold.
    cbn in Hw. apply lookup_singleton_Some in Hw as [_ <-]. by cbn in Hp.
Qed.

(** X9: in a process started on an editor that never reuses a view id, a
    timer whose condition holds flushes into the view that is, at that
    moment, the "language servers" panel of the timer's window: the
    messages of a window are not written to a panel of another window, nor
    to a panel that was destroyed and replaced. *)
Theorem flush_targets_server_panel (e : Editor) (trace : list panels.action)
    (i : nat) (t : panels.Timer) :
  editor_wf e →
  let st := panels.exec (panels.loaded e) trace in
  panels.timers st !! i = Some t →
  panels.condition st t = true →
  window_api.find_output_panel (panels.editor st) (panels.timer_window_id t)
    (panels.panel_name panels.LanguageServers)
  = Some (panels.timer_panel t)
  ∧ window_api.view_is_valid (panels.editor st) (panels.timer_panel t) = true.
Proof.
  intros Hwf st Hi Hc. split.
  - apply (flush_goes_to_server_panel st i t); [by apply exec_wired|done|done].
  - unfold panels.condition in Hc. destruct (window_api.truthy _); [|done].
    by destruct (window_api.view_is_valid _ _).
Qed.

Lemma flush_targets_server_panel_witness :
  window_api.find_output_panel
    (panels.editor
       (panels.exec (panels.loaded one_window)
          [panels.CallUpdateServerPanel 1 (str_of "srv") (str_of "started")]))
    1 (panels.panel_name panels.LanguageServers)
  = Some 1.
Proof.
  apply (flush_targets_server_panel one_window
           [panels.CallUpdateServerPanel 1 (str_of "srv") (str_of "started")]
           O (panels.mkTimer 1 1 1 80)).
  - exact one_window_wf.
  - vm_compute. reflexivity.
  - vm_compute. reflexivity.
Defined.

(** ** A burst of messages *)
Section bursts.

Implicit Types st : panels.State.
Implicit Types entries : list (str * str).

Lemma exec_app st trace1 trace2 :
  panels.exec st (trace1 ++ trace2) = panels.exec (panels.exec st trace1) trace2.
Proof. unfold panels.exec. by rewrite fold_left_app. Qed.

Lemma burst_timers_cons panel window n entry entries :
  burst_timers panel window n (entry :: entries)
  = panels.mkTimer panel window (S n) panels.SERVER_PANEL_DEBOUNCE_TIME_MS
    :: burst_timers panel window (S n) entries.
Proof.
  unfold burst_timers. cbn [imap]. f_equal; [f_equal; lia|].
  apply imap_ext. intros k x _. cbn. f_equal. lia.
Qed.

Lemma burst_timers_snoc panel window n entries entry :
  burst_timers panel window n (entries ++ [entry])
  = burst_timers panel window n entries
    ++ [panels.mkTimer panel window (n + S (length entries))
          panels.SERVER_PANEL_DEBOUNCE_TIME_MS].
Proof.
  unfold burst_timers. rewrite imap_app. cbn [imap]. do 3 f_equal. lia.
Qed.

Lemma burst_timers_previous_length panel window n entries t :
  t ∈ burst_timers panel window n entries →
  panels.timer_panel t = panel ∧ panels.timer_window_id t = window
  ∧ (n < panels.timer_previous_length t ≤ n + length entries)%nat.
Proof.
  unfold burst_timers. intros (k & x & -> & Hk)%elem_of_lookup_imap.
  apply lookup_lt_Some in Hk. cbn. lia.
Qed.

(** Where a burst of calls leaves the process. *)
Lemma burst_state st window entries e panel :
  window_api.window_is_valid (panels.editor st) window = true →
  panels.ensure_server_panel (panels.editor st) window = (e, Some panel) →
  window_api.truthy (Some panel) = true →
  entries ≠ [] →
  let queue := default [] (panels.to_be_processed st !! window) in
  panels.exec st (burst window entries)
  = panels.mkState e (<[window := queue ++ entries]> (panels.to_be_processed st))
      (panels.timers st ++ burst_timers panel window (length queue) entries).
Proof.
  revert st.
  induction entries as [|[prefix message] entries IH]; intros st Hvalid Hpanel Htrue Hne queue;
    [done|].
  cbn [burst map fst snd]. rewrite exec_cons. cbn [panels.step state_of].
  rewrite (update_server_panel_enqueues _ _ _ _ _ _ Hvalid Hpanel Htrue). fold queue.
  rewrite burst_timers_cons.
  destruct entries as [|entry' entries]; [cbn; by rewrite length_app, Nat.add_1_r|].
  fold (burst window (entry' :: entries)). rewrite IH; cbn [panels.editor]; try done.
  - cbn [panels.to_be_processed panels.timers]. rewrite lookup_insert_eq.
    cbn [default from_option]. unfold id.
    rewrite insert_insert_eq, !length_app, !Nat.add_1_r, <-!app_assoc. done.
  - pose proof (ensure_server_panel_windows (panels.editor st) window window) as Hw.
    rewrite Hpanel in Hw. cbn [fst] in Hw. by rewrite Hw.
  - by apply (ensure_server_panel_again (panels.editor st)).
Qed.

(** A timer whose condition fails goes and nothing else changes. *)
Lemma elapse_stale st before t after :
  panels.timers st = before ++ t :: after →
  panels.condition st t = false →
  state_of (panels.timer_elapses st (length before))
  = panels.mkState (panels.editor st) (panels.to_be_processed st) (before ++ after).
Proof.
  intros Htimers Hc. unfold panels.timer_elapses.
  rewrite Htimers, list_lookup_middle by done. rewrite condition_timers, Hc.
  cbn [state_of]. f_equal.
  by rewrite delete_middle.
Qed.

Lemma elapse_all_stale st before stale after :
  panels.timers st = before ++ stale ++ after →
  Forall (λ t, panels.condition st t = false) stale →
  panels.exec st (replicate (length stale) (panels.TimerElapses (length before)))
  = panels.mkState (panels.editor st) (panels.to_be_processed st) (before ++ after).
Proof.
  revert st. induction stale as [|t stale IH]; intros st Htimers Hstale.
  - cbn in *. rewrite <-Htimers. by destruct st.
  - apply Forall_cons in Hstale as [Ht Hstale].
    cbn [length replicate]. rewrite exec_cons. cbn [panels.step].
    rewrite (elapse_stale st before t (stale ++ after) Htimers Ht).
    rewrite IH; done.
Qed.

End bursts.

(** X10: debouncing.  A burst of calls to [update_server_panel] for one
    window whose panel is open, leaving fewer than 10 entries queued, arms
    one timer per call; when these timers elapse, all but the last find the
    queue longer than they saw it and do nothing, and the last writes the
    whole queue, in order, in a single flush and empties the table entry. *)
Theorem burst_flushed_once (st : panels.State) (window : Z)
    (entries : list (str * str)) (e : Editor) (panel : Z) (view : View) :
  window_api.window_is_valid (panels.editor st) window = true →
  panels.ensure_server_panel (panels.editor st) window = (e, Some panel) →
  window_api.truthy (Some panel) = true →
  views e !! panel = Some view →
  entries ≠ [] →
  let queue := default [] (panels.to_be_processed st !! window) ++ entries in
  let older := length (panels.timers st) in
  (length queue < 10)%nat →
  panels.exec st (burst window entries)
  = panels.mkState e (<[window := queue]> (panels.to_be_processed st))
      (panels.timers st
       ++ burst_timers panel window
            (length (default [] (panels.to_be_processed st !! window))) entries)
  ∧ panels.exec st
      (burst window entries
       ++ replicate (length entries - 1) (panels.TimerElapses older))
    = panels.mkState e (<[window := queue]> (panels.to_be_processed st))
        (panels.timers st
         ++ [panels.mkTimer panel window (length queue) panels.SERVER_PANEL_DEBOUNCE_TIME_MS])
  ∧ panels.exec st
      (burst window entries
       ++ replicate (length entries) (panels.TimerElapses older))
    = panels.mkState
        (window_api.on_view e panel
           (λ _, mkView true (flushed_text (view_text view) queue)))
        (delete window (panels.to_be_processed st))
        (panels.timers st).
Proof.
  intros Hvalid Hpanel Htrue Hview Hne queue older Hshort.
  pose proof (burst_state st window entries e panel Hvalid Hpanel Htrue Hne) as Hburst.
  cbn zeta in Hburst. fold queue in Hburst.
  split; [done|].
  set (old := default [] (panels.to_be_processed st !! window)) in *.
  destruct entries as [|entry entries _] using rev_ind; [done|].
  rewrite burst_timers_snoc in Hburst.
  assert (Hlast : (length old + S (length entries))%nat = length queue).
  { unfold queue. rewrite !length_app. cbn. lia. }
  rewrite Hlast in Hburst.
  set (last := panels.mkTimer panel window (length queue) panels.SERVER_PANEL_DEBOUNCE_TIME_MS)
    in *.
  set (st1 := panels.mkState e (<[window := queue]> (panels.to_be_processed st))
                (panels.timers st ++ burst_timers panel window (length old) entries ++ [last])).
  assert (Hst1 : panels.exec st (burst window (entries ++ [entry])) = st1).
  { by rewrite Hburst. }
  assert (Hstale : panels.exec st1
                     (replicate (length entries) (panels.TimerElapses older))
                   = panels.mkState e (<[window := queue]> (panels.to_be_processed st))
                       (panels.timers st ++ [last])).
  { assert (Hlen : length entries = length (burst_timers panel window (length old) entries)).
    { unfold burst_timers. by rewrite length_imap. }
    rewrite Hlen.
    apply (elapse_all_stale st1 (panels.timers st)
             (burst_timers panel window (length old) entries) [last]); [done|].
    apply Forall_forall. intros t Ht.
    apply burst_timers_previous_length in Ht as (Hp & Hw & Hprev).
    unfold panels.condition. cbn [panels.editor panels.to_be_processed st1].
    rewrite Hw, lookup_insert_eq.
    destruct (negb _); [done|]. destruct (negb _); [done|].
    destruct (Nat.leb_spec 10 (length queue)); [lia|].
    apply Nat.eqb_neq. lia. }
  split.
  - rewrite exec_app, Hst1. rewrite length_app. cbn [length].
    replace (length entries + 1 - 1)%nat with (length entries) by lia. done.
  - rewrite exec_app, Hst1. rewrite length_app. cbn [length].
    rewrite Nat.add_1_r, replicate_S_end, exec_app, Hstale.
    cbn [panels.exec fold_left panels.step].
    assert (Hqueue : queue ≠ []).
    { unfold queue. by destruct old. }
    rewrite (timer_elapses_flush _ older last view queue); cbn [state_of].
    + cbn [panels.editor panels.to_be_processed panels.timers last panels.timer_panel
             panels.timer_window_id].
      f_equal.
      * apply delete_insert_eq.
      * unfold older. by rewrite delete_middle, app_nil_r.
    + cbn [panels.timers]. unfold older. by rewrite list_lookup_middle.
    + unfold panels.condition. cbn [panels.editor panels.to_be_processed last
                                      panels.timer_panel panels.timer_window_id
                                      panels.timer_previous_length].
      rewrite Htrue. cbn [negb].
      unfold window_api.view_is_valid. rewrite Hview.
      rewrite bool_decide_eq_true_2 by (by eexists). cbn [negb].
      rewrite lookup_insert_eq.
      destruct (Nat.leb_spec 10 (length queue)); [lia|]. apply Nat.eqb_refl.
    + done.
    + cbn [panels.to_be_processed last panels.timer_window_id]. apply lookup_insert_eq.
    + done.
Qed.

Lemma burst_flushed_once_witness :
  panels.exec (panels.loaded one_window)
    (burst 1 [(str_of "srv", str_of "a"); (str_of "srv", str_of "b")]
     ++ replicate 2 (panels.TimerElapses 0))
  = panels.mkState
      (window_api.on_view one_panel 1
         (λ _, mkView true
                 (flushed_text []
                    [(str_of "srv", str_of "a"); (str_of "srv", str_of "b")])))
      (delete 1 ∅) [].
Proof.
  destruct (burst_flushed_once (panels.loaded one_window) 1
              [(str_of "srv", str_of "a"); (str_of "srv", str_of "b")]
              one_panel 1 (mkView true [])) as (_ & _ & Hflush).
  - vm_compute. reflexivity.
  - vm_compute. reflexivity.
  - reflexivity.
  - vm_compute. reflexivity.
  - discriminate.
  - vm_compute. lia.
  - exact Hflush.
Defined.

(** X11: the max-size trigger.  Once the queue of a window holds 10 or more
    entries, whichever timer of that window elapses next with its panel
    still open flushes the whole queue, however long the queue was when
    that timer was armed. *)
Theorem full_queue_flushed_by_any_timer (st : panels.State) (i : nat)
    (t : panels.Timer) (view : View) (queue : list (str * str)) :
  panels.timers st !! i = Some t →
  window_api.truthy (Some (panels.timer_panel t)) = true →
  views (panels.editor st) !! panels.timer_panel t = Some view →
  panels.to_be_processed st !! panels.timer_window_id t = Some queue →
  (10 ≤ length queue)%nat →
  panels.timer_elapses st i
  = Ok (panels.mkState
          (window_api.on_view (panels.editor st) (panels.timer_panel t)
             (λ _, mkView true (flushed_text (view_text view) queue)))
          (delete (panels.timer_window_id t) (panels.to_be_processed st))
          (delete i (panels.timers st))).
Proof.
  intros Hi Htrue Hview Hq Hfull.
  apply timer_elapses_flush; try done.
  - apply condition_true; [done|]. split.
    + unfold window_api.view_is_valid. rewrite Hview.
      apply bool_decide_eq_true_2. by eexists.
    + exists queue. split; [done|by left].
  - intros ->. cbn in Hfull. lia.
Qed.

Lemma full_queue_flushed_by_any_timer_witness :
  completed
    (panels.timer_elapses
       (panels.exec (panels.loaded one_window)
          (burst 1 (replicate 10 (str_of "srv", str_of "line"))))
       0) = true.
Proof.
  rewrite (full_queue_flushed_by_any_timer
             (panels.exec (panels.loaded one_window)
                (burst 1 (replicate 10 (str_of "srv", str_of "line"))))
             O (panels.mkTimer 1 1 1 80) (mkView true [])
             (replicate 10 (str_of "srv", str_of "line"))).
  - reflexivity.
  - vm_compute. reflexivity.
  - reflexivity.
  - vm_compute. reflexivity.
  - vm_compute. reflexivity.
  - vm_compute. lia.
Defined.

Lemma destroy_output_panels_closes_all_witness :
  no_open_panel (panels.destroy_output_panels one_panel 1) 1 panels.LanguageServers.
Proof.
  destruct (destroy_output_panels_closes_all one_panel 1) as (Hclosed & _).
  apply Hclosed.
Defined.

(** ** Windows do not interfere *)
Section isolation.

Implicit Types st : panels.State.

Lemma ensure_server_panel_keeps_views e window id v :
  editor_wf e →
  views e !! id = Some v →
  views (panels.ensure_server_panel e window).1 !! id = Some v.
Proof.
  intros Hwf Hv.
  destruct (ensure_server_panel_cases e window)
    as [[_ ->]|[[_ ->]|[(id' & _ & _ & ->)|(w & Hw & _ & ->)]]]; try done.
  assert (Hne : id ≠ next_view_id e).
  { pose proof (wf_views e Hwf id (mk_is_Some _ _ Hv)). lia. }
  destruct (window_api.truthy _); cbn [fst window_api.on_view views with_new_panel].
  - by rewrite lookup_alter_ne, lookup_insert_ne.
  - by rewrite lookup_insert_ne.
Qed.

Lemma update_server_panel_editor st window prefix message :
  panels.editor (panels.update_server_panel st window prefix message) = panels.editor st
  ∨ panels.editor (panels.update_server_panel st window prefix message)
    = (panels.ensure_server_panel (panels.editor st) window).1.
Proof.
  unfold panels.update_server_panel.
  destruct (window_api.window_is_valid _ _); cbn [negb]; [|by left].
  destruct (panels.ensure_server_panel _ _) as [e [panel|]]; [|by right].
  destruct (window_api.truthy _); by right.
Qed.

Lemma update_server_panel_timers st window prefix message :
  panels.timers st `prefix_of` panels.timers (panels.update_server_panel st window prefix message).
Proof.
  unfold panels.update_server_panel.
  destruct (window_api.window_is_valid _ _); cbn [negb]; [|done].
  destruct (panels.ensure_server_panel _ _) as [e [panel|]]; [|done].
  destruct (window_api.truthy _); cbn [negb]; [|done].
  by eexists.
Qed.

Lemma timer_elapses_panel st i t :
  panels.timers st !! i = Some t →
  let e' := panels.editor (state_of (panels.timer_elapses st i)) in
  e' = panels.editor st
  ∨ ∃ f, e' = window_api.on_view (panels.editor st) (panels.timer_panel t) f.
Proof.
  intros Hi. unfold panels.timer_elapses. rewrite Hi.
  destruct (panels.condition _ t); [|by left].
  unfold panels.flush. destruct (negb _); [by left|].
  cbn [panels.editor panels.to_be_processed panels.timers].
  destruct (views (panels.editor st) !! panels.timer_panel t) as [view|]; [|by left].
  right. destruct (panels.run _ _ _) as [r|x r]; by eexists.
Qed.

End isolation.

(** X12: windows do not interfere.  A call to [update_server_panel] leaves
    the queues of all other windows, the timers already armed and (in an
    editor that never reuses view ids) every open view as they were.  An
    elapsing timer changes no queue but that of its own window and no view
    but its own panel, and neither opens nor closes a window. *)
Theorem windows_are_isolated (st : panels.State) :
  (∀ window prefix message,
     let st' := panels.update_server_panel st window prefix message in
     (∀ other, other ≠ window →
        panels.to_be_processed st' !! other = panels.to_be_processed st !! other)
     ∧ panels.timers st `prefix_of` panels.timers st'
     ∧ (editor_wf (panels.editor st) →
        ∀ id v, views (panels.editor st) !! id = Some v →
                views (panels.editor st') !! id = Some v))
  ∧ (∀ i t,
       panels.timers st !! i = Some t →
       let st' := state_of (panels.timer_elapses st i) in
       (∀ other, other ≠ panels.timer_window_id t →
          panels.to_be_processed st' !! other = panels.to_be_processed st !! other)
       ∧ (∀ id, id ≠ panels.timer_panel t →
            views (panels.editor st') !! id = views (panels.editor st) !! id)
       ∧ windows (panels.editor st') = windows (panels.editor st)
       ∧ panels.timers st' = delete i (panels.timers st)).
Proof.
  split.
  - intros window prefix message st'. subst st'. split; [|split].
    + intros other Hne.
      destruct (step_table st (panels.CallUpdateServerPanel window prefix message))
        as [H|[(w & p & m & [= <- <- <-] & H)|(i & t & [=] & _)]];
        cbn [panels.step state_of] in H; rewrite H; [done|].
      by rewrite lookup_insert_ne.
    + apply update_server_panel_timers.
    + intros Hwf id v Hv.
      destruct (update_server_panel_editor st window prefix message) as [->| ->]; [done|].
      by apply ensure_server_panel_keeps_views.
  - intros i t Hi st'. subst st'.
    pose proof (timer_elapses_state st i) as Hstate. cbn zeta in Hstate.
    rewrite Hi in Hstate. destruct Hstate as [Htimers Htable].
    pose proof (timer_elapses_panel st i t Hi) as Heditor. cbn zeta in Heditor.
    split; [|split; [|split]].
    + intros other Hne. rewrite Htable.
      destruct (panels.condition st t); [|done]. by rewrite lookup_delete_ne.
    + intros id Hne. destruct Heditor as [->|[f ->]]; [done|].
      cbn [window_api.on_view views]. by rewrite lookup_alter_ne.
    + by destruct Heditor as [->|[f ->]].
    + done.
Qed.

Lemma one_panel_wf : editor_wf one_panel.
Proof. apply (ensure_server_panel_wired one_window 1 one_window_wf). Qed.

Lemma windows_are_isolated_witness :
  views
    (panels.editor
       (panels.update_server_panel (panels.loaded one_panel) 1
          (str_of "srv") (str_of "started"))) !! 1
  = Some (mkView true []).
Proof.
  destruct (windows_are_isolated (panels.loaded one_panel)) as [Hupdate _].
  destruct (Hupdate 1 (str_of "srv") (str_of "started")) as (_ & _ & Hviews).
  apply Hviews.
  - exact one_panel_wf.
  - vm_compute. reflexivity.
Defined.
